(** * rs_trader: the order store and the matching engine of [src/main.py]

    A shallow embedding of [JsonDatabase] and [Exchange].  The store is the
    dictionary of three lists that the class keeps; every method is written
    as a function on that dictionary, and the methods of [Exchange], which
    read and write the store and may raise, live in a small state-and-error
    monad. *)

From Stdlib Require Import ZArith NArith List Bool Ascii String Lia.
From Stdlib Require Import Permutation Sorted DecimalString HexadecimalString.
Import ListNotations.
Open Scope Z_scope.

(** ** Python values

    [update_order_status] compares a stored field with [str(order_id)], and
    [_fulfill_order] calls it once with a UUID and once with an integer, so
    the values that reach that comparison are kept with their run-time
    type. *)

Definition UUID := N.

Inductive pyval : Type :=
| PyInt (z : Z)
| PyStr (s : string)
| PyUUID (u : UUID).

(** [a == b]: values of different types are never equal. *)
Definition py_eq (a b : pyval) : bool :=
  match a, b with
  | PyInt x, PyInt y => Z.eqb x y
  | PyStr s, PyStr t => String.eqb s t
  | PyUUID u, PyUUID v => N.eqb u v
  | _, _ => false
  end.

Fixpoint zeros (n : nat) : string :=
  match n with
  | O => EmptyString
  | S k => String "0"%char (zeros k)
  end.

(** The 32 hexadecimal digits of a UUID, grouped 8-4-4-4-12. *)
Definition uuid_hex (u : UUID) : string :=
  let h := HexadecimalString.NilZero.string_of_uint (N.to_hex_uint u) in
  let h32 := String.append (zeros (32 - String.length h)) h in
  String.concat "-"%string
    [substring 0 8 h32; substring 8 4 h32; substring 12 4 h32;
     substring 16 4 h32; substring 20 12 h32].

(** [str(v)] *)
Definition py_str (v : pyval) : string :=
  match v with
  | PyInt z => DecimalString.NilZero.string_of_int (Z.to_int z)
  | PyStr s => s
  | PyUUID u => uuid_hex u
  end.

(** ** Data model *)

Inductive OrderType : Type := BUY | SELL.
Inductive OrderStatus : Type := OPEN | CLOSED.

Definition OrderType_eqb (a b : OrderType) : bool :=
  match a, b with
  | BUY, BUY | SELL, SELL => true
  | _, _ => false
  end.

Definition OrderStatus_eqb (a b : OrderStatus) : bool :=
  match a, b with
  | OPEN, OPEN | CLOSED, CLOSED => true
  | _, _ => false
  end.

(** Modelled from the spec: [src/structs/structs.py] is not part of the
    sources at hand.  The fields are the ones section 3 lists and the ones
    [main.py] reads; [user_id], [item_id], [quantity] and [price] are
    integers, as the signature of [get_orders] and the demo driver have
    them. *)
Record Order : Type := mkOrder {
  order_id : UUID;
  user_id : Z;
  item_id : Z;
  order_type : OrderType;
  quantity : Z;
  price : Z;
  order_status : OrderStatus
}.

(** Modelled from the spec: one execution, section 3. *)
Record OrderPart : Type := mkOrderPart {
  order_part_id : UUID;
  part_quantity : Z;
  part_price : Z;
  executed_at : Z
}.

(** Modelled from the spec: the join record of section 3. *)
Record OrderLink : Type := mkOrderLink {
  link_order_id : UUID;
  link_order_part_id : UUID
}.

Definition set_order_status (o : Order) (s : OrderStatus) : Order :=
  mkOrder (order_id o) (user_id o) (item_id o) (order_type o)
          (quantity o) (price o) s.

Definition set_quantity (o : Order) (q : Z) : Order :=
  mkOrder (order_id o) (user_id o) (item_id o) (order_type o)
          q (price o) (order_status o).

(** ** The store: [JsonDatabase.db] *)

Record Database : Type := mkDatabase {
  orders : list Order;
  order_parts : list OrderPart;
  order_links : list OrderLink
}.

Definition empty_db : Database := mkDatabase [] [] [].

Inductive exn : Type := IndexError.

Inductive result (A : Type) : Type :=
| Ok (a : A)
| Raise (e : exn).
Arguments Ok {A} a.
Arguments Raise {A} e.

Definition zsum (l : list Z) : Z := fold_right Z.add 0 l.

(** [f is None or eqb x f] *)
Definition is_None_or {A : Type} (test : A -> A -> bool) (x : A) (f : option A) : bool :=
  match f with
  | None => true
  | Some v => test x v
  end.

Module JsonDatabase.

Definition add_order (d : Database) (order : Order) : Database :=
  mkDatabase (orders d ++ [order]) (order_parts d) (order_links d).

Definition order_matches
    (f_order_id : option UUID) (f_item_id f_user_id : option Z)
    (f_order_type : option OrderType) (f_status : option OrderStatus)
    (max_price min_price : option Z) (order : Order) : bool :=
  true
  && is_None_or N.eqb (order_id order) f_order_id
  && is_None_or Z.eqb (item_id order) f_item_id
  && is_None_or Z.eqb (user_id order) f_user_id
  && is_None_or OrderType_eqb (order_type order) f_order_type
  && is_None_or OrderStatus_eqb (order_status order) f_status
  && is_None_or Z.leb (price order) max_price
  && is_None_or Z.geb (price order) min_price.

Definition get_orders (d : Database)
    (f_order_id : option UUID) (f_item_id f_user_id : option Z)
    (f_order_type : option OrderType) (f_status : option OrderStatus)
    (max_price min_price : option Z) : list Order :=
  filter (order_matches f_order_id f_item_id f_user_id f_order_type
                        f_status max_price min_price)
         (orders d).

(** [x in l] on a list of UUIDs *)
Definition uuid_in (x : UUID) (l : list UUID) : bool := existsb (N.eqb x) l.

(** [part_id == order_part_id], the right-hand side being optional *)
Definition eq_opt_uuid (x : UUID) (f : option UUID) : bool :=
  match f with
  | None => false
  | Some v => N.eqb x v
  end.

Definition get_order_parts (d : Database)
    (f_order_id f_order_part_id : option UUID) : list OrderPart :=
  let links :=
    map link_order_part_id
        (filter (fun l => is_None_or N.eqb (link_order_id l) f_order_id)
                (order_links d)) in
  filter (fun p =>
            if uuid_in (order_part_id p) links then true
            else eq_opt_uuid (order_part_id p) f_order_part_id)
         (order_parts d).

Definition get_order_remaining_quantity (d : Database) (oid : UUID) : result Z :=
  match get_orders d (Some oid) None None None None None None with
  | [] => Raise IndexError
  | order :: _ =>
      let parts := get_order_parts d (Some oid) None in
      let filled_quantity := zsum (map part_quantity parts) in
      Ok (quantity order - filled_quantity)
  end.

(** The loop of [update_order_status]: the first order whose [user_id]
    equals [str(order_id)] gets the new status, and the scan stops. *)
Fixpoint update_scan (oid : pyval) (status : OrderStatus) (l : list Order) : list Order :=
  match l with
  | [] => []
  | order :: rest =>
      if py_eq (PyInt (user_id order)) (PyStr (py_str oid))
      then set_order_status order status :: rest
      else order :: update_scan oid status rest
  end.

(** The method has no [raise]; its result type leaves room for one, so that
    what the contract says about a missing order can be stated. *)
Definition update_order_status (d : Database) (oid : pyval) (status : OrderStatus) : result Database :=
  Ok (mkDatabase (update_scan oid status (orders d)) (order_parts d) (order_links d)).

Definition add_order_part (d : Database) (p : OrderPart) : Database :=
  mkDatabase (orders d) (order_parts d ++ [p]) (order_links d).

Definition add_order_link (d : Database) (l : OrderLink) : Database :=
  mkDatabase (orders d) (order_parts d) (order_links d ++ [l]).

End JsonDatabase.

(** ** The engine: [Exchange]

    The state is the store together with the number of [OrderPart]s built
    so far: the [k]-th part takes its identifier from the [k]-th call of
    [uuid4] and its time stamp from the [k]-th call of [datetime.now]. *)

Record State : Type := mkState {
  db : Database;
  drawn : nat
}.

Definition M (A : Type) : Type := State -> result (A * State).

Definition ret {A : Type} (a : A) : M A := fun s => Ok (a, s).

Definition bind {A B : Type} (c : M A) (k : A -> M B) : M B :=
  fun s =>
    match c s with
    | Ok (a, s') => k a s'
    | Raise e => Raise e
    end.

Declare Scope exchange_scope.
Delimit Scope exchange_scope with ex.
Notation "x <- c ;; k" := (bind c (fun x => k))
  (at level 61, c at next level, right associativity) : exchange_scope.
Notation "c ;; k" := (bind c (fun _ => k))
  (at level 61, right associativity) : exchange_scope.

(** A read of the store that may raise. *)
Definition query {A : Type} (f : Database -> result A) : M A :=
  fun s =>
    match f (db s) with
    | Ok a => Ok (a, s)
    | Raise e => Raise e
    end.

(** A read of the store that cannot raise. *)
Definition read {A : Type} (f : Database -> A) : M A :=
  fun s => Ok (f (db s), s).

(** A write to the store. *)
Definition write (f : Database -> Database) : M unit :=
  fun s => Ok (tt, mkState (f (db s)) (drawn s)).

(** A write to the store by a method that may raise. *)
Definition update (f : Database -> result Database) : M unit :=
  fun s =>
    match f (db s) with
    | Ok d => Ok (tt, mkState d (drawn s))
    | Raise e => Raise e
    end.

Section Exchange.

Variable uuid4 : nat -> UUID.
Variable now : nat -> Z.

(** [OrderPart(executed_at=datetime.now(), quantity=q, price=p)] *)
Definition new_order_part (q p : Z) : M OrderPart :=
  fun s =>
    Ok (mkOrderPart (uuid4 (drawn s)) q p (now (drawn s)),
        mkState (db s) (S (drawn s))).

(** The [for] loop of [_fulfill_order]; the result is the value of
    [remaining_quantity] when the loop is left. *)
Fixpoint fulfill_loop (primary_order : Order) (matching_orders : list Order)
         (remaining_quantity : Z) : M Z :=
  match matching_orders with
  | [] => ret remaining_quantity
  | mtch :: rest =>
      if remaining_quantity <=? 0 then ret remaining_quantity
      else
        (match_quantity <-
           query (fun d => JsonDatabase.get_order_remaining_quantity d (order_id mtch)) ;;
         let fill_quantity := Z.min remaining_quantity match_quantity in
         let remaining_quantity := remaining_quantity - fill_quantity in
         order_part <- new_order_part fill_quantity (price mtch) ;;
         write (fun d => JsonDatabase.add_order_part d order_part) ;;
         write (fun d => JsonDatabase.add_order_link d
                  (mkOrderLink (order_id primary_order) (order_part_id order_part))) ;;
         write (fun d => JsonDatabase.add_order_link d
                  (mkOrderLink (order_id mtch) (order_part_id order_part))) ;;
         (if quantity mtch =? fill_quantity
          then update (fun d => JsonDatabase.update_order_status d
                                  (PyUUID (order_id mtch)) CLOSED)
          else ret tt) ;;
         fulfill_loop primary_order rest remaining_quantity)%ex
  end.

(** [_fulfill_order]; the result is the caller's [primary_order] object
    as the call leaves it. *)
Definition _fulfill_order (primary_order : Order) (matching_orders : list Order) : M Order :=
  (remaining_quantity <-
     fulfill_loop primary_order matching_orders (quantity primary_order) ;;
   if remaining_quantity =? 0
   then update (fun d => JsonDatabase.update_order_status d
                           (PyInt (user_id primary_order)) CLOSED) ;;
        ret primary_order
   else ret (set_quantity primary_order remaining_quantity))%ex.

(** [list.sort(key=lambda o: o.price)]: ascending and stable. *)
Fixpoint insert_by_price (o : Order) (l : list Order) : list Order :=
  match l with
  | [] => [o]
  | x :: rest =>
      if price o <=? price x then o :: x :: rest
      else x :: insert_by_price o rest
  end.

Fixpoint sort_by_price (l : list Order) : list Order :=
  match l with
  | [] => []
  | x :: rest => insert_by_price x (sort_by_price rest)
  end.

(** The list [match_buy_order] hands to [_fulfill_order]. *)
Definition buy_candidates (d : Database) (buy_order : Order) : list Order :=
  sort_by_price
    (JsonDatabase.get_orders d None (Some (item_id buy_order)) None
       (Some SELL) (Some OPEN) (Some (price buy_order)) None).

(** The list [match_sell_order] hands to [_fulfill_order]. *)
Definition sell_candidates (d : Database) (sell_order : Order) : list Order :=
  sort_by_price
    (JsonDatabase.get_orders d None (Some (item_id sell_order)) None
       (Some BUY) (Some OPEN) None (Some (price sell_order))).

Definition match_buy_order (buy_order : Order) : M Order :=
  (open_sell_orders <- read (fun d => buy_candidates d buy_order) ;;
   _fulfill_order buy_order open_sell_orders)%ex.

Definition match_sell_order (sell_order : Order) : M Order :=
  (open_buy_orders <- read (fun d => sell_candidates d sell_order) ;;
   _fulfill_order sell_order open_buy_orders)%ex.

Definition place_order (order : Order) : M Order :=
  (write (fun d => JsonDatabase.add_order d order) ;;
   match order_type order with
   | BUY => match_buy_order order
   | SELL => match_sell_order order
   end)%ex.

(** The part that one pass of the loop body builds in state [s]. *)
Definition part_of_fill (s : State) (mtch : Order) (fill_quantity : Z) : OrderPart :=
  mkOrderPart (uuid4 (drawn s)) fill_quantity (price mtch) (now (drawn s)).

(** The store after the three inserts of one pass of the loop body. *)
Definition record_fill (d : Database) (primary_order mtch : Order) (part : OrderPart) : Database :=
  mkDatabase (orders d) (order_parts d ++ [part])
             (order_links d
              ++ [mkOrderLink (order_id primary_order) (order_part_id part);
                  mkOrderLink (order_id mtch) (order_part_id part)]).

Definition after_fill (s : State) (primary_order mtch : Order) (fill_quantity : Z) : State :=
  mkState (record_fill (db s) primary_order mtch (part_of_fill s mtch fill_quantity))
          (S (drawn s)).

(** The identifiers that [uuid4] is still to return are new to the store
    and differ from one another. *)
Definition fresh_draws (s : State) : Prop :=
  (forall k, (drawn s <= k)%nat ->
     ~ In (uuid4 k) (map order_part_id (order_parts (db s))) /\
     ~ In (uuid4 k) (map link_order_part_id (order_links (db s)))) /\
  (forall i j, (drawn s <= i)%nat -> (drawn s <= j)%nat ->
     uuid4 i = uuid4 j -> i = j).

(** The states of the exchange: the empty store, and what [place_order]
    makes of a state when it is given an order under a new identifier and
    for a positive quantity. *)
Inductive reachable : State -> Prop :=
| reachable_start : reachable (mkState empty_db 0)
| reachable_place (s s' : State) (order order' : Order) :
    reachable s ->
    ~ In (order_id order) (map order_id (orders (db s))) ->
    0 < quantity order ->
    place_order order s = Ok (order', s') ->
    reachable s'.

End Exchange.

(** ** The notions the properties are stated with *)

(** A part is linked to an order when some [OrderLink] joins the two. *)
Definition linked (d : Database) (oid : UUID) (p : OrderPart) : bool :=
  existsb (fun l => N.eqb (link_order_id l) oid
                    && N.eqb (link_order_part_id l) (order_part_id p))
          (order_links d).

Definition linked_parts (d : Database) (oid : UUID) : list OrderPart :=
  filter (linked d oid) (order_parts d).

Definition filled (d : Database) (oid : UUID) : Z :=
  zsum (map part_quantity (linked_parts d oid)).

(** The order an identifier denotes: the first one stored under it. *)
Definition find_order (d : Database) (oid : UUID) : option Order :=
  find (fun o => N.eqb (order_id o) oid) (orders d).

(** The links that reference a part. *)
Definition links_of_part (d : Database) (pid : UUID) : list OrderLink :=
  filter (fun l => N.eqb (link_order_part_id l) pid) (order_links d).

(** The sell orders a buy order may trade with, in the words of section 4.2. *)
Definition eligible_for_buy (buy_order o : Order) : bool :=
  OrderStatus_eqb (order_status o) OPEN
  && OrderType_eqb (order_type o) SELL
  && Z.eqb (item_id o) (item_id buy_order)
  && Z.leb (price o) (price buy_order).

(** The buy orders a sell order may trade with. *)
Definition eligible_for_sell (sell_order o : Order) : bool :=
  OrderStatus_eqb (order_status o) OPEN
  && OrderType_eqb (order_type o) BUY
  && Z.eqb (item_id o) (item_id sell_order)
  && Z.leb (price sell_order) (price o).

(** The fills of section 4.2, from the quantity still wanted and the
    quantities the candidates still offer. *)
Fixpoint allocation (remaining : Z) (offered : list Z) : list Z :=
  match offered with
  | [] => []
  | m :: rest =>
      if remaining <=? 0 then []
      else Z.min remaining m :: allocation (remaining - Z.min remaining m) rest
  end.

(** What a candidate still offers: its remaining quantity as the store
    computes it. *)
Definition offered (d : Database) (o : Order) : Z :=
  match JsonDatabase.get_order_remaining_quantity d (order_id o) with
  | Ok q => q
  | Raise _ => 0
  end.

Definition opposite (a b : OrderType) : Prop :=
  (a = BUY /\ b = SELL) \/ (a = SELL /\ b = BUY).

(** A part settles two orders: exactly two links reference it, and they
    point to two different stored orders, a buy and a sell. *)
Definition settles_two (d : Database) (p : OrderPart) : Prop :=
  exists l1 l2 o1 o2,
    links_of_part d (order_part_id p) = [l1; l2] /\
    In o1 (orders d) /\ order_id o1 = link_order_id l1 /\
    In o2 (orders d) /\ order_id o2 = link_order_id l2 /\
    order_id o1 <> order_id o2 /\
    opposite (order_type o1) (order_type o2).

Definition price_le (a b : Order) : Prop := price a <= price b.

(** What every reachable state satisfies: stored orders have different
    identifiers, the identifiers still to be drawn are new, every link
    points to a stored order, and every part settles two orders. *)
Definition consistent (uuid4 : nat -> UUID) (s : State) : Prop :=
  NoDup (map order_id (orders (db s))) /\
  fresh_draws uuid4 s /\
  (forall l, In l (order_links (db s)) ->
     In (link_order_id l) (map order_id (orders (db s)))) /\
  (forall p, In p (order_parts (db s)) -> settles_two (db s) p).

(** ** The run of the demo driver

    The orders of the [__main__] block; the identifiers, which the driver
    leaves to [uuid4], and the clock are fixed here. *)

Definition demo_uuid4 (k : nat) : UUID := (1000 + N.of_nat k)%N.
Definition demo_now (k : nat) : Z := Z.of_nat k.

Definition buy_order : Order := mkOrder 1%N 1 1001 BUY 10 150 OPEN.
Definition sell_order : Order := mkOrder 2%N 2 1001 SELL 5 140 OPEN.
Definition sell_order2 : Order := mkOrder 3%N 3 1001 SELL 5 150 OPEN.
Definition sell_order3 : Order := mkOrder 4%N 4 1002 SELL 10 200 OPEN.

(** A later buy order, on the item of the first two. *)
Definition buy_order2 : Order := mkOrder 5%N 5 1001 BUY 3 150 OPEN.

(** Two sell orders at one price, and a buy order that takes the first and
    part of the second. *)
Definition ask_a : Order := mkOrder 11%N 7 1001 SELL 3 140 OPEN.
Definition ask_b : Order := mkOrder 12%N 8 1001 SELL 4 140 OPEN.
Definition bid_c : Order := mkOrder 13%N 9 1001 BUY 5 150 OPEN.

(** A sell order that rests, and a buy order of the same user. *)
Definition own_ask : Order := mkOrder 21%N 6 1001 SELL 5 140 OPEN.
Definition own_bid : Order := mkOrder 22%N 6 1001 BUY 5 150 OPEN.

Definition start : State := mkState empty_db 0.

(** [place_order] on the state a previous call left. *)
Definition and_then (r : result (Order * State)) (order : Order) : result (Order * State) :=
  match r with
  | Ok (_, s) => place_order demo_uuid4 demo_now order s
  | Raise e => Raise e
  end.

Definition state_of (r : result (Order * State)) : State :=
  match r with
  | Ok (_, s) => s
  | Raise _ => start
  end.

(** No stored order is filled beyond its quantity. *)
Definition not_overfilled (d : Database) : Prop :=
  forall o, In o (orders d) -> 0 <= filled d (order_id o) <= quantity o.

(** The quantity filled on the orders of one side, and the quantity of all
    the parts. *)
Definition filled_on (d : Database) (side : OrderType) : Z :=
  zsum (map (fun o => filled d (order_id o))
            (filter (fun o => OrderType_eqb (order_type o) side) (orders d))).

Definition traded (d : Database) : Z := zsum (map part_quantity (order_parts d)).

(** The candidates [place_order] hands to [_fulfill_order] for an order, from
    the store that already holds the order. *)
Definition candidates_of (d : Database) (order : Order) : list Order :=
  match order_type order with
  | BUY => buy_candidates d order
  | SELL => sell_candidates d order
  end.

(** The two links of a part: to the placed order, then to the candidate. *)
Definition links_of_fill (primary_order : Order) (fill : Order * OrderPart) : list OrderLink :=
  [mkOrderLink (order_id primary_order) (order_part_id (snd fill));
   mkOrderLink (order_id (fst fill)) (order_part_id (snd fill))].

Definition loose_part : OrderPart := mkOrderPart 2000%N 4 150 9.

(** * Properties *)

(** ** The store *)

Lemma zsum_app (l1 l2 : list Z) : zsum (l1 ++ l2) = zsum l1 + zsum l2.
Proof.
  induction l1 as [|x l1 IH]; simpl; [reflexivity|].
  rewrite IH. lia.
Qed.

Lemma OrderType_eqb_eq (a b : OrderType) : OrderType_eqb a b = true <-> a = b.
Proof. destruct a, b; simpl; split; congruence. Qed.

Lemma OrderStatus_eqb_eq (a b : OrderStatus) : OrderStatus_eqb a b = true <-> a = b.
Proof. destruct a, b; simpl; split; congruence. Qed.

Module StoreFacts.
Import JsonDatabase.

Lemma uuid_in_In (x : UUID) (l : list UUID) : uuid_in x l = true <-> In x l.
Proof.
  unfold uuid_in. rewrite existsb_exists. split.
  - intros (y & Hy & E). apply N.eqb_eq in E. now subst.
  - intros H. exists x. split; [assumption | apply N.eqb_refl].
Qed.

(** An integer never equals a string, so the scan of [update_order_status]
    selects no order. *)
Lemma update_scan_id (oid : pyval) (st : OrderStatus) (l : list Order) :
  update_scan oid st l = l.
Proof.
  induction l as [|o l IH]; simpl; [reflexivity|].
  now rewrite IH.
Qed.

Lemma update_order_status_id (d : Database) (oid : pyval) (st : OrderStatus) :
  update_order_status d oid st = Ok d.
Proof.
  unfold update_order_status. rewrite update_scan_id. now destruct d.
Qed.

(** Whatever the test of the scan selects, the scan rewrites the status of
    at most one order and nothing else. *)
Lemma update_scan_shape (oid : pyval) (st : OrderStatus) (l : list Order) :
  update_scan oid st l = l \/
  exists l1 o l2, l = l1 ++ o :: l2 /\
                  update_scan oid st l = l1 ++ set_order_status o st :: l2.
Proof.
  induction l as [|o l IH]; [now left|].
  cbn [update_scan].
  destruct (py_eq (PyInt (user_id o)) (PyStr (py_str oid))).
  - right. now exists [], o, l.
  - destruct IH as [E | (l1 & o' & l2 & E1 & E2)].
    + left. now rewrite E.
    + right. exists (o :: l1), o', l2. simpl. now rewrite E1 at 1; rewrite E2.
Qed.

Lemma linked_iff (d : Database) (oid : UUID) (p : OrderPart) :
  linked d oid p = true <->
  exists l, In l (order_links d) /\ link_order_id l = oid
            /\ link_order_part_id l = order_part_id p.
Proof.
  unfold linked. rewrite existsb_exists. split.
  - intros (l & Hl & E). apply andb_true_iff in E as [E1 E2].
    apply N.eqb_eq in E1, E2. now exists l.
  - intros (l & Hl & E1 & E2). exists l. split; [assumption|].
    apply andb_true_iff. split; now apply N.eqb_eq.
Qed.

(** The membership test of [get_order_parts] is the join over the links. *)
Lemma uuid_in_links (d : Database) (oid : UUID) (p : OrderPart) :
  uuid_in (order_part_id p)
    (map link_order_part_id
       (filter (fun l => is_None_or N.eqb (link_order_id l) (Some oid))
               (order_links d)))
  = linked d oid p.
Proof.
  unfold linked, uuid_in. simpl.
  induction (order_links d) as [|l ls IH]; simpl; [reflexivity|].
  destruct (N.eqb (link_order_id l) oid) eqn:E; simpl.
  - rewrite IH. f_equal. apply N.eqb_sym.
  - exact IH.
Qed.

Lemma get_order_parts_linked (d : Database) (oid : UUID) :
  get_order_parts d (Some oid) None = linked_parts d oid.
Proof.
  unfold get_order_parts, linked_parts.
  apply filter_ext. intros p. rewrite uuid_in_links.
  now destruct (linked d oid p).
Qed.

Lemma get_orders_by_id (d : Database) (oid : UUID) :
  get_orders d (Some oid) None None None None None None
  = filter (fun o => N.eqb (order_id o) oid) (orders d).
Proof.
  unfold get_orders. apply filter_ext. intros o.
  unfold order_matches. simpl. now rewrite !andb_true_r.
Qed.

Lemma find_head_filter {A : Type} (f : A -> bool) (l : list A) :
  find f l = hd_error (filter f l).
Proof.
  induction l as [|x l IH]; simpl; [reflexivity|].
  now destruct (f x).
Qed.

Lemma get_order_remaining_quantity_eq (d : Database) (oid : UUID) :
  get_order_remaining_quantity d oid =
  match find_order d oid with
  | None => Raise IndexError
  | Some o => Ok (quantity o - filled d oid)
  end.
Proof.
  unfold get_order_remaining_quantity, find_order, filled.
  rewrite get_orders_by_id, get_order_parts_linked, find_head_filter.
  now destruct (filter _ (orders d)).
Qed.

Lemma find_order_None (d : Database) (oid : UUID) :
  find_order d oid = None <-> ~ In oid (map order_id (orders d)).
Proof.
  unfold find_order. split.
  - intros H Hin. apply in_map_iff in Hin as (o & E & Hin).
    apply (find_none _ _ H) in Hin. apply N.eqb_neq in Hin. congruence.
  - intros H. destruct (find _ _) eqn:E; [|reflexivity].
    apply find_some in E as [Hin E]. apply N.eqb_eq in E.
    exfalso. apply H. apply in_map_iff. now exists o.
Qed.

Lemma find_order_Some (d : Database) (oid : UUID) (o : Order) :
  find_order d oid = Some o -> In o (orders d) /\ order_id o = oid.
Proof.
  unfold find_order. intros H. apply find_some in H as [Hin E].
  apply N.eqb_eq in E. now split.
Qed.

End StoreFacts.

(** ** Sorting by price *)

Lemma insert_by_price_perm (o : Order) (l : list Order) :
  Permutation (insert_by_price o l) (o :: l).
Proof.
  induction l as [|x l IH]; simpl; [apply Permutation_refl|].
  destruct (price o <=? price x); [apply Permutation_refl|].
  eapply Permutation_trans; [apply perm_skip, IH | apply perm_swap].
Qed.

Lemma sort_by_price_perm (l : list Order) : Permutation (sort_by_price l) l.
Proof.
  induction l as [|x l IH]; simpl; [apply perm_nil|].
  eapply Permutation_trans; [apply insert_by_price_perm | now apply perm_skip].
Qed.

Lemma insert_by_price_sorted (o : Order) (l : list Order) :
  StronglySorted price_le l -> StronglySorted price_le (insert_by_price o l).
Proof.
  induction 1 as [|x l Hs IH Hx]; simpl.
  - constructor; constructor.
  - destruct (Z.leb_spec (price o) (price x)) as [Hle|Hgt].
    + constructor; [now constructor|].
      constructor; [exact Hle|].
      eapply Forall_impl; [|exact Hx]. unfold price_le. intros; lia.
    + constructor; [exact IH|].
      eapply Permutation_Forall;
        [apply Permutation_sym, insert_by_price_perm|].
      constructor; [unfold price_le; lia | exact Hx].
Qed.

Lemma sort_by_price_sorted (l : list Order) :
  StronglySorted price_le (sort_by_price l).
Proof.
  induction l as [|x l IH]; simpl; [constructor|].
  now apply insert_by_price_sorted.
Qed.

(** The sort is stable: the orders at one price keep their relative
    order. *)
Lemma insert_by_price_stable (p : Z) (o : Order) (l : list Order) :
  filter (fun x => price x =? p) (insert_by_price o l)
  = filter (fun x => price x =? p) (o :: l).
Proof.
  induction l as [|x l IH]; [reflexivity|].
  cbn [insert_by_price].
  destruct (Z.leb_spec (price o) (price x)) as [Hle|Hgt]; [reflexivity|].
  cbn [filter] in *. rewrite IH.
  destruct (Z.eqb_spec (price x) p), (Z.eqb_spec (price o) p);
    try reflexivity; lia.
Qed.

Lemma sort_by_price_stable (p : Z) (l : list Order) :
  filter (fun x => price x =? p) (sort_by_price l)
  = filter (fun x => price x =? p) l.
Proof.
  induction l as [|x l IH]; [reflexivity|].
  cbn [sort_by_price]. rewrite insert_by_price_stable.
  cbn [filter]. now rewrite IH.
Qed.

(** ** The candidate queries *)

Lemma buy_query_eligible (buy o : Order) :
  JsonDatabase.order_matches None (Some (item_id buy)) None (Some SELL)
                             (Some OPEN) (Some (price buy)) None o
  = eligible_for_buy buy o.
Proof.
  unfold JsonDatabase.order_matches, eligible_for_buy, is_None_or.
  rewrite !andb_true_r, !andb_true_l.
  destruct (item_id o =? item_id buy), (OrderType_eqb (order_type o) SELL),
    (OrderStatus_eqb (order_status o) OPEN), (price o <=? price buy);
    reflexivity.
Qed.

Lemma sell_query_eligible (sell o : Order) :
  JsonDatabase.order_matches None (Some (item_id sell)) None (Some BUY)
                             (Some OPEN) None (Some (price sell)) o
  = eligible_for_sell sell o.
Proof.
  unfold JsonDatabase.order_matches, eligible_for_sell, is_None_or.
  rewrite !andb_true_r, !andb_true_l.
  replace (price o >=? price sell) with (price sell <=? price o)
    by (rewrite Z.geb_leb; reflexivity).
  destruct (item_id o =? item_id sell), (OrderType_eqb (order_type o) BUY),
    (OrderStatus_eqb (order_status o) OPEN), (price sell <=? price o);
    reflexivity.
Qed.

Lemma buy_candidates_eq (d : Database) (buy : Order) :
  buy_candidates d buy = sort_by_price (filter (eligible_for_buy buy) (orders d)).
Proof.
  unfold buy_candidates, JsonDatabase.get_orders. f_equal.
  apply filter_ext. intros o. apply buy_query_eligible.
Qed.

Lemma sell_candidates_eq (d : Database) (sell : Order) :
  sell_candidates d sell = sort_by_price (filter (eligible_for_sell sell) (orders d)).
Proof.
  unfold sell_candidates, JsonDatabase.get_orders. f_equal.
  apply filter_ext. intros o. apply sell_query_eligible.
Qed.

Lemma eligible_for_buy_iff (buy o : Order) :
  eligible_for_buy buy o = true <->
  order_status o = OPEN /\ order_type o = SELL
  /\ item_id o = item_id buy /\ price o <= price buy.
Proof.
  unfold eligible_for_buy. rewrite !andb_true_iff.
  rewrite OrderStatus_eqb_eq, OrderType_eqb_eq, Z.eqb_eq, Z.leb_le. tauto.
Qed.

Lemma eligible_for_sell_iff (sell o : Order) :
  eligible_for_sell sell o = true <->
  order_status o = OPEN /\ order_type o = BUY
  /\ item_id o = item_id sell /\ price sell <= price o.
Proof.
  unfold eligible_for_sell. rewrite !andb_true_iff.
  rewrite OrderStatus_eqb_eq, OrderType_eqb_eq, Z.eqb_eq, Z.leb_le. tauto.
Qed.

Lemma In_buy_candidates (d : Database) (buy o : Order) :
  In o (buy_candidates d buy) <->
  In o (orders d) /\ eligible_for_buy buy o = true.
Proof.
  rewrite buy_candidates_eq, <- filter_In. split; intros H.
  - eapply Permutation_in; [apply sort_by_price_perm | exact H].
  - eapply Permutation_in; [apply Permutation_sym, sort_by_price_perm | exact H].
Qed.

Lemma In_sell_candidates (d : Database) (sell o : Order) :
  In o (sell_candidates d sell) <->
  In o (orders d) /\ eligible_for_sell sell o = true.
Proof.
  rewrite sell_candidates_eq, <- filter_In. split; intros H.
  - eapply Permutation_in; [apply sort_by_price_perm | exact H].
  - eapply Permutation_in; [apply Permutation_sym, sort_by_price_perm | exact H].
Qed.

(** ** The engine *)

Section ExchangeFacts.
Import JsonDatabase StoreFacts.

Variable uuid4 : nat -> UUID.
Variable now : nat -> Z.


(** One pass of the loop body. *)
Lemma fulfill_loop_cons (primary m : Order) (rest : list Order) (rem : Z) (s : State) :
  fulfill_loop uuid4 now primary (m :: rest) rem s =
  if rem <=? 0 then Ok (rem, s)
  else match get_order_remaining_quantity (db s) (order_id m) with
       | Raise e => Raise e
       | Ok mq =>
           fulfill_loop uuid4 now primary rest (rem - Z.min rem mq)
                        (after_fill uuid4 now s primary m (Z.min rem mq))
       end.
Proof.
  cbn [fulfill_loop].
  destruct (rem <=? 0); [reflexivity|].
  unfold bind at 1. unfold query.
  destruct (get_order_remaining_quantity (db s) (order_id m)) as [mq|e];
    [|reflexivity].
  unfold bind, new_order_part, write, update, ret.
  cbn [db drawn].
  unfold after_fill, record_fill, part_of_fill.
  destruct (quantity m =? Z.min rem mq).
  - rewrite update_order_status_id.
    unfold add_order_link, add_order_part. cbn.
    now rewrite <- app_assoc.
  - unfold add_order_link, add_order_part. cbn.
    now rewrite <- app_assoc.
Qed.

Lemma fulfill_loop_nil (primary : Order) (rem : Z) (s : State) :
  fulfill_loop uuid4 now primary [] rem s = Ok (rem, s).
Proof. reflexivity. Qed.

Lemma fulfill_loop_done (primary : Order) (cands : list Order) (rem : Z) (s : State) :
  rem <= 0 -> fulfill_loop uuid4 now primary cands rem s = Ok (rem, s).
Proof.
  intros H. destruct cands as [|m rest]; [reflexivity|].
  rewrite fulfill_loop_cons.
  destruct (Z.leb_spec rem 0); [reflexivity | lia].
Qed.

(** [_fulfill_order] is its loop: the two status updates leave the store as
    it is. *)
Lemma _fulfill_order_eq (primary : Order) (cands : list Order) (s : State) :
  _fulfill_order uuid4 now primary cands s =
  match fulfill_loop uuid4 now primary cands (quantity primary) s with
  | Raise e => Raise e
  | Ok (r, s') =>
      Ok (if r =? 0 then primary else set_quantity primary r, s')
  end.
Proof.
  unfold _fulfill_order, bind.
  destruct (fulfill_loop uuid4 now primary cands (quantity primary) s) as [[r s']|e];
    [|reflexivity].
  destruct (r =? 0); [|reflexivity].
  unfold update, ret. rewrite update_order_status_id. now destruct s'.
Qed.

Lemma place_order_eq (order : Order) (s : State) :
  place_order uuid4 now order s =
  let s1 := mkState (add_order (db s) order) (drawn s) in
  _fulfill_order uuid4 now order
    (match order_type order with
     | BUY => buy_candidates (db s1) order
     | SELL => sell_candidates (db s1) order
     end) s1.
Proof.
  unfold place_order, bind, write.
  destruct (order_type order); reflexivity.
Qed.

(** A property of the state that one pass of the loop body keeps is kept by
    the loop. *)
Lemma fulfill_loop_keeps (I : State -> Prop) (primary : Order) (cands : list Order) :
  (forall s m fill, I s -> In m cands -> I (after_fill uuid4 now s primary m fill)) ->
  forall rem s r s',
    I s -> fulfill_loop uuid4 now primary cands rem s = Ok (r, s') -> I s'.
Proof.
  induction cands as [|m rest IH]; intros Hstep rem s r s' HI E.
  - rewrite fulfill_loop_nil in E. now inversion E; subst.
  - rewrite fulfill_loop_cons in E.
    destruct (rem <=? 0); [now inversion E; subst|].
    destruct (get_order_remaining_quantity (db s) (order_id m)) as [mq|e];
      [|discriminate].
    eapply IH; [| |exact E].
    + intros s0 m0 fill H0 Hin. apply Hstep; [assumption | now right].
    + apply Hstep; [assumption | now left].
Qed.

Lemma after_fill_orders (s : State) (primary m : Order) (fill : Z) :
  orders (db (after_fill uuid4 now s primary m fill)) = orders (db s).
Proof. reflexivity. Qed.

Lemma fulfill_loop_orders (primary : Order) (cands : list Order) (rem : Z) (s : State) (r : Z) (s' : State) :
  fulfill_loop uuid4 now primary cands rem s = Ok (r, s') ->
  orders (db s') = orders (db s).
Proof.
  intros E.
  apply (fulfill_loop_keeps (fun t => orders (db t) = orders (db s)) primary cands)
    with (rem := rem) (s := s) (r := r); auto.
Qed.

(** The loop returns when every candidate is stored. *)
Lemma fulfill_loop_returns (primary : Order) (cands : list Order) :
  forall rem s,
    (forall c, In c cands -> In (order_id c) (map order_id (orders (db s)))) ->
    exists r s', fulfill_loop uuid4 now primary cands rem s = Ok (r, s').
Proof.
  induction cands as [|m rest IH]; intros rem s Hin.
  - now exists rem, s.
  - rewrite fulfill_loop_cons.
    destruct (rem <=? 0); [now exists rem, s|].
    rewrite get_order_remaining_quantity_eq.
    destruct (find_order (db s) (order_id m)) as [o|] eqn:F.
    + apply IH. intros c Hc. rewrite after_fill_orders. apply Hin. now right.
    + apply find_order_None in F. exfalso. apply F, Hin. now left.
Qed.

(** *** What one pass of the loop body does to the remaining quantities *)

Lemma linked_record_fill_old (d : Database) (primary m : Order) (part p : OrderPart) (x : UUID) :
  order_part_id p <> order_part_id part ->
  linked (record_fill d primary m part) x p = linked d x p.
Proof.
  intros Hne. unfold linked, record_fill. cbn [order_links].
  rewrite existsb_app. cbn [existsb link_order_id link_order_part_id].
  assert (E : N.eqb (order_part_id part) (order_part_id p) = false)
    by (apply N.eqb_neq; congruence).
  rewrite E, !andb_false_r. now rewrite !orb_false_r.
Qed.

Lemma linked_record_fill_new (d : Database) (primary m : Order) (part : OrderPart) (x : UUID) :
  ~ In (order_part_id part) (map link_order_part_id (order_links d)) ->
  linked (record_fill d primary m part) x part
  = N.eqb (order_id primary) x || N.eqb (order_id m) x.
Proof.
  intros Hnew. unfold linked, record_fill. cbn [order_links].
  rewrite existsb_app. cbn [existsb link_order_id link_order_part_id].
  rewrite N.eqb_refl, !andb_true_r, orb_false_r.
  replace (existsb _ (order_links d)) with false; [reflexivity|].
  symmetry. apply not_true_is_false. intros H.
  apply existsb_exists in H as (l & Hl & E).
  apply andb_true_iff in E as [_ E]. apply N.eqb_eq in E.
  apply Hnew. apply in_map_iff. now exists l.
Qed.

Lemma filled_record_fill (d : Database) (primary m : Order) (part : OrderPart) (x : UUID) :
  ~ In (order_part_id part) (map order_part_id (order_parts d)) ->
  ~ In (order_part_id part) (map link_order_part_id (order_links d)) ->
  filled (record_fill d primary m part) x
  = filled d x
    + (if N.eqb (order_id primary) x || N.eqb (order_id m) x
       then part_quantity part else 0).
Proof.
  intros Hp Hl. unfold filled, linked_parts.
  change (order_parts (record_fill d primary m part)) with (order_parts d ++ [part]).
  rewrite filter_app, map_app, zsum_app. f_equal.
  - f_equal. f_equal. apply filter_ext_in. intros p Hin.
    apply linked_record_fill_old. intros E. apply Hp. rewrite <- E.
    now apply in_map.
  - cbn [filter]. rewrite linked_record_fill_new by assumption.
    destruct (_ || _); simpl; lia.
Qed.

Lemma offered_after_fill (s : State) (primary m c : Order) (fill : Z) :
  fresh_draws uuid4 s ->
  order_id c <> order_id primary ->
  order_id c <> order_id m ->
  offered (db (after_fill uuid4 now s primary m fill)) c = offered (db s) c.
Proof.
  intros [Hf _] H1 H2. unfold offered.
  rewrite !get_order_remaining_quantity_eq.
  unfold after_fill. cbn [db].
  change (find_order (record_fill (db s) primary m (part_of_fill uuid4 now s m fill)) (order_id c))
    with (find_order (db s) (order_id c)).
  destruct (find_order (db s) (order_id c)); [|reflexivity].
  destruct (Hf (drawn s) (Nat.le_refl _)) as [Hp Hl].
  rewrite filled_record_fill by assumption.
  replace (N.eqb (order_id primary) (order_id c)) with false
    by (symmetry; apply N.eqb_neq; congruence).
  replace (N.eqb (order_id m) (order_id c)) with false
    by (symmetry; apply N.eqb_neq; congruence).
  simpl. f_equal. lia.
Qed.

Lemma fresh_draws_after_fill (s : State) (primary m : Order) (fill : Z) :
  fresh_draws uuid4 s -> fresh_draws uuid4 (after_fill uuid4 now s primary m fill).
Proof.
  intros [Hf Hinj]. split.
  - intros k Hk. cbn [after_fill drawn] in Hk.
    destruct (Hf k) as [Hp Hl]; [lia|].
    assert (Hne : uuid4 k <> uuid4 (drawn s)).
    { intros E. apply Hinj in E; lia. }
    unfold after_fill, record_fill, part_of_fill.
    cbn [db order_parts order_links order_part_id].
    rewrite !map_app. cbn [map link_order_part_id order_part_id].
    split; intros Hin; apply in_app_or in Hin as [Hin|Hin]; try tauto;
      simpl in Hin; intuition congruence.
  - intros i j Hi Hj. cbn [after_fill drawn] in Hi, Hj.
    apply Hinj; lia.
Qed.

(** *** The fills of a run *)

Lemma zsum_nonneg (ms : list Z) :
  Forall (fun m => 0 <= m) ms -> 0 <= zsum ms.
Proof.
  induction 1 as [|m ms Hm _ IH]; unfold zsum in *; simpl; lia.
Qed.

Lemma allocation_total (rem : Z) (ms : list Z) :
  0 <= rem -> Forall (fun m => 0 <= m) ms ->
  zsum (allocation rem ms) = Z.min rem (zsum ms).
Proof.
  intros Hrem Hms. revert rem Hrem.
  induction Hms as [|m ms Hm Hms IH]; intros rem Hrem.
  - unfold zsum. simpl. lia.
  - pose proof (zsum_nonneg ms Hms) as Hsum.
    cbn [allocation].
    destruct (Z.leb_spec rem 0) as [Hle|Hlt].
    + unfold zsum in *. simpl. lia.
    + specialize (IH (rem - Z.min rem m)).
      unfold zsum in *. cbn [fold_right]. rewrite IH by lia. lia.
Qed.

Lemma fulfill_loop_allocates (primary : Order) (cands : list Order) :
  forall rem s,
    fresh_draws uuid4 s ->
    NoDup (map order_id cands) ->
    ~ In (order_id primary) (map order_id cands) ->
    (forall c, In c cands -> In (order_id c) (map order_id (orders (db s)))) ->
    exists r s' new,
      fulfill_loop uuid4 now primary cands rem s = Ok (r, s') /\
      order_parts (db s') = order_parts (db s) ++ new /\
      map part_quantity new = allocation rem (map (offered (db s)) cands) /\
      r = rem - zsum (map part_quantity new).
Proof.
  induction cands as [|m rest IH]; intros rem s Hf Hnd Hp Hin.
  - exists rem, s, []. rewrite app_nil_r. simpl. repeat split; lia.
  - rewrite fulfill_loop_cons. cbn [map allocation].
    destruct (rem <=? 0).
    { exists rem, s, []. rewrite app_nil_r. simpl. repeat split; lia. }
    destruct (get_order_remaining_quantity (db s) (order_id m)) as [mq|e] eqn:G.
    2:{ rewrite get_order_remaining_quantity_eq in G.
        destruct (find_order (db s) (order_id m)) eqn:F; [discriminate|].
        apply find_order_None in F. exfalso. apply F, Hin. now left. }
    assert (Hoff : offered (db s) m = mq) by (unfold offered; now rewrite G).
    rewrite Hoff. clear Hoff.
    cbn [map] in Hnd, Hp. inversion Hnd as [|? ? Hm Hnd']; subst.
    destruct (IH (rem - Z.min rem mq) (after_fill uuid4 now s primary m (Z.min rem mq)))
      as (r & s' & new & E & Eparts & Eq & Er).
    + now apply fresh_draws_after_fill.
    + assumption.
    + intros H. apply Hp. now right.
    + intros c Hc. rewrite after_fill_orders. apply Hin. now right.
    + exists r, s', (part_of_fill uuid4 now s m (Z.min rem mq) :: new).
      split; [exact E|]. split; [|split].
      * rewrite Eparts. unfold after_fill, record_fill. cbn [db order_parts].
        now rewrite <- app_assoc.
      * cbn [map part_quantity part_of_fill]. f_equal. rewrite Eq.
        f_equal. apply map_ext_in. intros c Hc.
        apply offered_after_fill; [assumption | |].
        -- intros Ec. apply Hp. right. rewrite <- Ec. now apply in_map.
        -- intros Ec. apply Hm. rewrite <- Ec. now apply in_map.
      * cbn [map part_quantity part_of_fill zsum fold_right].
        fold (zsum (map part_quantity new)). lia.
Qed.

(** *** Which parts a run adds *)

Lemma fulfill_loop_new_parts (primary : Order) (cands : list Order) (rem : Z) (s : State) (r : Z) (s' : State) :
  fulfill_loop uuid4 now primary cands rem s = Ok (r, s') ->
  forall part, In part (order_parts (db s')) ->
    In part (order_parts (db s)) \/
    exists c, In c cands /\ part_price part = price c /\
              In (mkOrderLink (order_id c) (order_part_id part)) (order_links (db s')) /\
              In (mkOrderLink (order_id primary) (order_part_id part)) (order_links (db s')).
Proof.
  intros E.
  apply (fulfill_loop_keeps
           (fun t => forall part, In part (order_parts (db t)) ->
              In part (order_parts (db s)) \/
              exists c, In c cands /\ part_price part = price c /\
                In (mkOrderLink (order_id c) (order_part_id part)) (order_links (db t)) /\
                In (mkOrderLink (order_id primary) (order_part_id part)) (order_links (db t)))
           primary cands) with (rem := rem) (s := s) (r := r);
    [| now left | exact E].
  intros t m fill IHt Hm part Hin.
  unfold after_fill, record_fill in *. cbn [db order_parts order_links] in *.
  apply in_app_or in Hin as [Hin|[<-|[]]].
  - destruct (IHt part Hin) as [H|(c & Hc & Hp & Hl1 & Hl2)]; [now left|].
    right. exists c. repeat split; try assumption; apply in_or_app; now left.
  - right. exists m. repeat split; try assumption;
      apply in_or_app; right; simpl; auto.
Qed.

(** What [match_buy_order] hands to [_fulfill_order], and what comes of it. *)
Lemma match_buy_order_candidates (buy_order : Order) (s : State) :
  let stored := orders (db s) in
  let eligible := filter (eligible_for_buy buy_order) stored in
  let candidates := buy_candidates (db s) buy_order in
  match_buy_order uuid4 now buy_order s
    = _fulfill_order uuid4 now buy_order candidates s /\
  (forall o, In o candidates <->
     In o stored /\ order_status o = OPEN /\ order_type o = SELL
     /\ item_id o = item_id buy_order /\ price o <= price buy_order) /\
  Permutation candidates eligible /\
  StronglySorted price_le candidates /\
  (forall p, filter (fun o => price o =? p) candidates
             = filter (fun o => price o =? p) eligible) /\
  (forall buy' s' part,
     match_buy_order uuid4 now buy_order s = Ok (buy', s') ->
     In part (order_parts (db s')) ->
     In part (order_parts (db s)) \/
     (part_price part <= price buy_order /\
      exists c, In c candidates /\ order_type c = SELL /\
                part_price part = price c /\
                In (mkOrderLink (order_id c) (order_part_id part))
                   (order_links (db s')))).
Proof.
  cbv zeta. split; [reflexivity|]. split; [|split; [|split; [|split]]].
  - intros o. rewrite In_buy_candidates, eligible_for_buy_iff. tauto.
  - rewrite buy_candidates_eq. apply sort_by_price_perm.
  - rewrite buy_candidates_eq. apply sort_by_price_sorted.
  - intros p. rewrite buy_candidates_eq. apply sort_by_price_stable.
  - intros buy' s' part E Hin.
    unfold match_buy_order, bind, read in E.
    rewrite _fulfill_order_eq in E.
    destruct (fulfill_loop uuid4 now buy_order (buy_candidates (db s) buy_order)
                           (quantity buy_order) s) as [[r t]|e] eqn:L;
      [|discriminate].
    inversion E; subst.
    destruct (fulfill_loop_new_parts _ _ _ _ _ _ L part Hin)
      as [H|(c & Hc & Hp & Hl & _)]; [now left|].
    right. pose proof Hc as Hc'.
    apply In_buy_candidates in Hc' as [_ He].
    apply eligible_for_buy_iff in He as (_ & Ht & _ & Hle).
    split; [lia|]. now exists c.
Qed.

(** C4. When a buy order is placed, the candidates handed to the fill
    allocation are exactly the stored orders that are OPEN, of type SELL, on
    the buy order's item and priced at or below its price; they come in
    ascending price, orders at one price in the order the store returns
    them; and every part the placement adds is priced at such a candidate's
    price, hence at or below the buy order's limit. *)
Theorem buy_candidates_are_eligible_sells_by_price (buy_order : Order) (s : State) :
  order_type buy_order = BUY ->
  let s1 := mkState (add_order (db s) buy_order) (drawn s) in
  let stored := orders (db s1) in
  let eligible := filter (eligible_for_buy buy_order) stored in
  let candidates := buy_candidates (db s1) buy_order in
  place_order uuid4 now buy_order s
    = _fulfill_order uuid4 now buy_order candidates s1 /\
  (forall o, In o candidates <->
     In o stored /\ order_status o = OPEN /\ order_type o = SELL
     /\ item_id o = item_id buy_order /\ price o <= price buy_order) /\
  Permutation candidates eligible /\
  StronglySorted price_le candidates /\
  (forall p, filter (fun o => price o =? p) candidates
             = filter (fun o => price o =? p) eligible) /\
  (forall buy' s' part,
     place_order uuid4 now buy_order s = Ok (buy', s') ->
     In part (order_parts (db s')) ->
     In part (order_parts (db s)) \/
     (part_price part <= price buy_order /\
      exists c, In c candidates /\ order_type c = SELL /\
                part_price part = price c /\
                In (mkOrderLink (order_id c) (order_part_id part))
                   (order_links (db s')))).
Proof.
  intros Hbuy. cbv zeta.
  assert (Eplace : place_order uuid4 now buy_order s
                   = match_buy_order uuid4 now buy_order
                       (mkState (add_order (db s) buy_order) (drawn s))).
  { unfold place_order, bind, write. now rewrite Hbuy. }
  destruct (match_buy_order_candidates buy_order
              (mkState (add_order (db s) buy_order) (drawn s)))
    as (H1 & H2 & H3 & H4 & H5 & H6).
  rewrite Eplace.
  split; [exact H1|]. split; [exact H2|]. split; [exact H3|].
  split; [exact H4|]. split; [exact H5|].
  intros buy' s' part E Hin. exact (H6 buy' s' part E Hin).
Qed.

(** *** The invariant of the exchange *)

Lemma NoDup_map_eq {A B : Type} (f : A -> B) (l : list A) (a b : A) :
  NoDup (map f l) -> In a l -> In b l -> f a = f b -> a = b.
Proof.
  induction l as [|x l IH]; simpl; intros Hnd Ha Hb E; [contradiction|].
  inversion Hnd as [|? ? Hx Hnd']; subst.
  destruct Ha as [<-|Ha], Hb as [<-|Hb]; auto.
  - exfalso. apply Hx. rewrite E. now apply in_map.
  - exfalso. apply Hx. rewrite <- E. now apply in_map.
Qed.

Lemma filter_none {A : Type} (f : A -> bool) (l : list A) :
  (forall x, In x l -> f x = false) -> filter f l = [].
Proof.
  induction l as [|x l IH]; intros H; [reflexivity|].
  simpl. rewrite (H x) by now left.
  apply IH. intros y Hy. apply H. now right.
Qed.

Lemma links_of_part_record_fill_old (d : Database) (primary m : Order) (part : OrderPart) (pid : UUID) :
  pid <> order_part_id part ->
  links_of_part (record_fill d primary m part) pid = links_of_part d pid.
Proof.
  intros Hne. unfold links_of_part, record_fill. cbn [order_links].
  rewrite filter_app. cbn [filter link_order_part_id].
  assert (E : N.eqb (order_part_id part) pid = false)
    by (apply N.eqb_neq; congruence).
  rewrite E. apply app_nil_r.
Qed.

Lemma links_of_part_record_fill_new (d : Database) (primary m : Order) (part : OrderPart) :
  ~ In (order_part_id part) (map link_order_part_id (order_links d)) ->
  links_of_part (record_fill d primary m part) (order_part_id part)
  = [mkOrderLink (order_id primary) (order_part_id part);
     mkOrderLink (order_id m) (order_part_id part)].
Proof.
  intros Hnew. unfold links_of_part, record_fill. cbn [order_links].
  rewrite filter_app. cbn [filter link_order_part_id].
  rewrite N.eqb_refl.
  replace (filter _ (order_links d)) with (@nil OrderLink); [reflexivity|].
  symmetry. apply filter_none. intros l Hl.
  apply N.eqb_neq. intros E.
  apply Hnew. rewrite <- E. now apply in_map.
Qed.

Lemma settles_two_record_fill_old (d : Database) (primary m : Order) (part p : OrderPart) :
  order_part_id p <> order_part_id part ->
  settles_two d p -> settles_two (record_fill d primary m part) p.
Proof.
  intros Hne (l1 & l2 & o1 & o2 & H). exists l1, l2, o1, o2.
  now rewrite links_of_part_record_fill_old.
Qed.

Lemma settles_two_record_fill_new (d : Database) (primary m : Order) (part : OrderPart) :
  ~ In (order_part_id part) (map link_order_part_id (order_links d)) ->
  In primary (orders d) -> In m (orders d) ->
  order_id primary <> order_id m ->
  opposite (order_type primary) (order_type m) ->
  settles_two (record_fill d primary m part) part.
Proof.
  intros Hnew Hp Hm Hne Hopp.
  exists (mkOrderLink (order_id primary) (order_part_id part)),
         (mkOrderLink (order_id m) (order_part_id part)), primary, m.
  rewrite links_of_part_record_fill_new by assumption.
  repeat split; assumption.
Qed.

Lemma settles_two_add_order (d : Database) (o : Order) (p : OrderPart) :
  settles_two d p -> settles_two (add_order d o) p.
Proof.
  intros (l1 & l2 & o1 & o2 & H1 & H2 & H3 & H4 & H5 & H6).
  exists l1, l2, o1, o2. unfold add_order. cbn [orders].
  repeat split; try tauto; try (apply in_or_app; now left).
Qed.

Lemma consistent_after_fill (s : State) (primary m : Order) (fill : Z) :
  consistent uuid4 s ->
  In primary (orders (db s)) -> In m (orders (db s)) ->
  opposite (order_type primary) (order_type m) ->
  consistent uuid4 (after_fill uuid4 now s primary m fill).
Proof.
  intros (Hnd & Hf & Hl & Hs) Hp Hm Hopp.
  assert (Hne : order_id primary <> order_id m).
  { intros E. apply (NoDup_map_eq order_id _ _ _ Hnd Hp Hm) in E. subst.
    destruct Hopp as [[? ?]|[? ?]]; congruence. }
  destruct Hf as [Hnew Hinj].
  destruct (Hnew (drawn s) (Nat.le_refl _)) as [Hparts Hlinks].
  split; [exact Hnd|]. split; [|split].
  - apply fresh_draws_after_fill. now split.
  - intros l Hin. unfold after_fill, record_fill in *.
    cbn [db order_links orders] in *.
    apply in_app_or in Hin as [Hin|[<-|[<-|[]]]]; cbn [link_order_id].
    + now apply Hl.
    + now apply in_map.
    + now apply in_map.
  - intros p Hin. unfold after_fill in *. cbn [db] in *.
    unfold record_fill in Hin. cbn [order_parts] in Hin.
    apply in_app_or in Hin as [Hin|[<-|[]]].
    + apply settles_two_record_fill_old; [|now apply Hs].
      intros E. apply Hparts. unfold part_of_fill in E.
      cbn [order_part_id] in E. rewrite <- E. now apply in_map.
    + now apply settles_two_record_fill_new.
Qed.

Lemma consistent_fulfill_loop (primary : Order) (cands : list Order) (rem : Z) (s : State) (r : Z) (s' : State) :
  consistent uuid4 s ->
  In primary (orders (db s)) ->
  (forall c, In c cands ->
     In c (orders (db s)) /\ opposite (order_type primary) (order_type c)) ->
  fulfill_loop uuid4 now primary cands rem s = Ok (r, s') ->
  consistent uuid4 s'.
Proof.
  intros Hc Hp Hcands E.
  cut (consistent uuid4 s' /\ orders (db s') = orders (db s)); [tauto|].
  apply (fulfill_loop_keeps
           (fun t => consistent uuid4 t /\ orders (db t) = orders (db s))
           primary cands) with (rem := rem) (s := s) (r := r);
    [| now split | exact E].
  intros t m fill [Ht Eo] Hm. split; [|now rewrite after_fill_orders].
  destruct (Hcands m Hm) as [Hin Hopp].
  apply consistent_after_fill; try assumption; now rewrite Eo.
Qed.

Lemma candidates_opposite (d : Database) (order c : Order) :
  In c (match order_type order with
        | BUY => buy_candidates d order
        | SELL => sell_candidates d order
        end) ->
  In c (orders d) /\ opposite (order_type order) (order_type c).
Proof.
  destruct (order_type order) eqn:T; intros H.
  - apply In_buy_candidates in H as [Hin He].
    apply eligible_for_buy_iff in He as (_ & Ht & _).
    split; [assumption | left; now split].
  - apply In_sell_candidates in H as [Hin He].
    apply eligible_for_sell_iff in He as (_ & Ht & _).
    split; [assumption | right; now split].
Qed.

Lemma consistent_add_order (s : State) (order : Order) :
  consistent uuid4 s ->
  ~ In (order_id order) (map order_id (orders (db s))) ->
  consistent uuid4 (mkState (add_order (db s) order) (drawn s)).
Proof.
  intros (Hnd & Hf & Hl & Hs) Hnew. unfold consistent, add_order.
  cbn [db orders order_parts order_links].
  split; [|split; [|split]].
  - rewrite map_app. cbn [map].
    apply NoDup_app; [exact Hnd | constructor; [intros []|constructor] |].
    intros x Hx [<-|[]]. contradiction.
  - exact Hf.
  - intros l Hin. rewrite map_app. apply in_or_app. left. now apply Hl.
  - intros p Hin. apply (settles_two_add_order (db s) order p). now apply Hs.
Qed.

Lemma consistent_place_order (s : State) (order order' : Order) (s' : State) :
  consistent uuid4 s ->
  ~ In (order_id order) (map order_id (orders (db s))) ->
  place_order uuid4 now order s = Ok (order', s') ->
  consistent uuid4 s'.
Proof.
  intros Hc Hnew E. rewrite place_order_eq in E. cbv zeta in E.
  rewrite _fulfill_order_eq in E.
  match type of E with
  | match ?L with _ => _ end = _ => destruct L as [[r t]|e] eqn:Loop
  end; [|discriminate].
  inversion E; subst.
  eapply consistent_fulfill_loop; [| | |exact Loop].
  - now apply consistent_add_order.
  - unfold add_order. cbn [db orders]. apply in_or_app. right. now left.
  - intros c Hin. now apply candidates_opposite in Hin.
Qed.

Lemma consistent_start :
  (forall i j, uuid4 i = uuid4 j -> i = j) ->
  consistent uuid4 (mkState empty_db 0).
Proof.
  intros Hinj. unfold consistent, fresh_draws. simpl.
  repeat split; try tauto; try constructor.
  intros i j _ _. apply Hinj.
Qed.

Lemma reachable_consistent (s : State) :
  (forall i j, uuid4 i = uuid4 j -> i = j) ->
  reachable uuid4 now s -> consistent uuid4 s.
Proof.
  intros Hinj. induction 1 as [|s s' order order' Hr IH Hnew Hq E].
  - now apply consistent_start.
  - eapply consistent_place_order; eassumption.
Qed.

(** C7. In every state of the exchange, each stored part is referenced by
    exactly two links, and the two links point to two different stored
    orders, one a buy and one a sell; stored orders have pairwise
    different identifiers, so each link points to one order. *)
Theorem every_part_settles_a_buy_and_a_sell (s : State) :
  (forall i j, uuid4 i = uuid4 j -> i = j) ->
  reachable uuid4 now s ->
  NoDup (map order_id (orders (db s))) /\
  forall p, In p (order_parts (db s)) ->
    exists l1 l2 o1 o2,
      links_of_part (db s) (order_part_id p) = [l1; l2] /\
      In o1 (orders (db s)) /\ order_id o1 = link_order_id l1 /\
      In o2 (orders (db s)) /\ order_id o2 = link_order_id l2 /\
      order_id o1 <> order_id o2 /\
      ((order_type o1 = BUY /\ order_type o2 = SELL) \/
       (order_type o1 = SELL /\ order_type o2 = BUY)).
Proof.
  intros Hinj Hr.
  destruct (reachable_consistent s Hinj Hr) as (Hnd & _ & _ & Hs).
  split; [exact Hnd|]. intros p Hp. exact (Hs p Hp).
Qed.

(** C5. On a store whose pending identifiers are new, run on candidates
    that are stored, pairwise different, different from the primary order
    and not overfilled: each pass fills the smaller of what is still wanted
    and what the candidate offers at that moment, and takes it off what is
    wanted; the loop is over once nothing is wanted; and the quantities of
    the parts added are the allocation of section 4.2, which sums to the
    smaller of the primary order's quantity and the total the candidates
    offer. *)
Theorem fill_allocation_fills_min_of_wanted_and_offered (primary_order : Order) (candidates : list Order) (s : State) :
  fresh_draws uuid4 s ->
  NoDup (map order_id candidates) ->
  ~ In (order_id primary_order) (map order_id candidates) ->
  (forall c, In c candidates -> In (order_id c) (map order_id (orders (db s)))) ->
  (forall c, In c candidates -> 0 <= offered (db s) c) ->
  0 <= quantity primary_order ->
  (forall m rest rem t mq,
     0 < rem ->
     get_order_remaining_quantity (db t) (order_id m) = Ok mq ->
     fulfill_loop uuid4 now primary_order (m :: rest) rem t
     = fulfill_loop uuid4 now primary_order rest (rem - Z.min rem mq)
         (after_fill uuid4 now t primary_order m (Z.min rem mq))) /\
  (forall l rem t,
     rem <= 0 -> fulfill_loop uuid4 now primary_order l rem t = Ok (rem, t)) /\
  exists primary' s' new,
    _fulfill_order uuid4 now primary_order candidates s = Ok (primary', s') /\
    order_parts (db s') = order_parts (db s) ++ new /\
    map part_quantity new
    = allocation (quantity primary_order) (map (offered (db s)) candidates) /\
    zsum (map part_quantity new)
    = Z.min (quantity primary_order) (zsum (map (offered (db s)) candidates)).
Proof.
  intros Hf Hnd Hp Hin Hoff Hq. split; [|split].
  - intros m rest rem t mq Hrem G. rewrite fulfill_loop_cons, G.
    destruct (Z.leb_spec rem 0); [lia | reflexivity].
  - intros l rem t Hrem. now apply fulfill_loop_done.
  - destruct (fulfill_loop_allocates primary_order candidates
                (quantity primary_order) s Hf Hnd Hp Hin)
      as (r & s' & new & E & Eparts & Eq & Er).
    rewrite _fulfill_order_eq, E.
    eexists _, s', new. split; [reflexivity|].
    split; [exact Eparts|]. split; [exact Eq|].
    rewrite Eq. apply allocation_total; [exact Hq|].
    apply Forall_forall. intros x Hx.
    apply in_map_iff in Hx as (c & <- & Hc). now apply Hoff.
Qed.

(** *** Filled quantities stay within the ordered ones *)

(** A property of what is still wanted and of the state that one pass of the
    loop body keeps is kept by the loop. *)
Lemma fulfill_loop_keeps_wanted (I : Z -> State -> Prop) (primary : Order) (cands : list Order) :
  (forall rem s m mq,
     I rem s -> In m cands -> 0 < rem ->
     get_order_remaining_quantity (db s) (order_id m) = Ok mq ->
     I (rem - Z.min rem mq) (after_fill uuid4 now s primary m (Z.min rem mq))) ->
  forall rem s r s',
    I rem s -> fulfill_loop uuid4 now primary cands rem s = Ok (r, s') -> I r s'.
Proof.
  induction cands as [|m rest IH]; intros Hstep rem s r s' HI E.
  - rewrite fulfill_loop_nil in E. now inversion E; subst.
  - rewrite fulfill_loop_cons in E.
    destruct (Z.leb_spec rem 0) as [Hle|Hlt]; [now inversion E; subst|].
    destruct (get_order_remaining_quantity (db s) (order_id m)) as [mq|e] eqn:G;
      [|discriminate].
    eapply IH; [| |exact E].
    + intros rem0 s0 m0 mq0 H0 Hin. apply Hstep; [assumption | now right].
    + apply Hstep; [assumption | now left | assumption | assumption].
Qed.

Lemma find_order_In (d : Database) (o : Order) :
  NoDup (map order_id (orders d)) -> In o (orders d) ->
  find_order d (order_id o) = Some o.
Proof.
  intros Hnd Hin. destruct (find_order d (order_id o)) as [o'|] eqn:F.
  - apply find_order_Some in F as [Hin' E]. f_equal.
    now apply (NoDup_map_eq order_id (orders d)).
  - apply find_order_None in F. exfalso. apply F. now apply in_map.
Qed.

Lemma filled_unlinked (d : Database) (x : UUID) :
  ~ In x (map link_order_id (order_links d)) -> filled d x = 0.
Proof.
  intros Hx. unfold filled, linked_parts.
  rewrite filter_none; [reflexivity|].
  intros p _. apply not_true_is_false. intros H.
  apply linked_iff in H as (l & Hl & E & _).
  apply Hx. rewrite <- E. now apply in_map.
Qed.

Lemma not_overfilled_fulfill_loop (primary : Order) (cands : list Order) (s : State) (r : Z) (s' : State) :
  consistent uuid4 s ->
  In primary (orders (db s)) ->
  (forall c, In c cands ->
     In c (orders (db s)) /\ opposite (order_type primary) (order_type c)) ->
  (forall o, In o (orders (db s)) -> order_id o <> order_id primary ->
     0 <= filled (db s) (order_id o) <= quantity o) ->
  filled (db s) (order_id primary) = 0 ->
  0 <= quantity primary ->
  fulfill_loop uuid4 now primary cands (quantity primary) s = Ok (r, s') ->
  not_overfilled (db s').
Proof.
  intros Hc Hp Hcands Hothers Hzero Hq E.
  set (I := fun (rem : Z) (t : State) =>
              orders (db t) = orders (db s) /\ consistent uuid4 t /\
              (forall o, In o (orders (db s)) -> order_id o <> order_id primary ->
                 0 <= filled (db t) (order_id o) <= quantity o) /\
              filled (db t) (order_id primary) = quantity primary - rem /\
              0 <= rem <= quantity primary).
  assert (HI : I r s').
  { apply (fulfill_loop_keeps_wanted I primary cands)
      with (rem := quantity primary) (s := s); [| |exact E].
    - intros rem t m mq (Eo & Ht & Ho & Hprim & Hrem) Hm Hpos G.
      destruct (Hcands m Hm) as [Hin Hopp].
      pose proof Ht as (Hnd & [Hnew Hinj] & _ & _).
      destruct (Hnew (drawn t) (Nat.le_refl _)) as [Hparts Hlinks].
      assert (Hne : order_id m <> order_id primary).
      { intros Eid.
        assert (m = primary)
          by (apply (NoDup_map_eq order_id (orders (db t))); congruence).
        subst. destruct Hopp as [[? ?]|[? ?]]; congruence. }
      rewrite get_order_remaining_quantity_eq in G.
      assert (Hin_t : In m (orders (db t))) by (rewrite Eo; exact Hin).
      rewrite (find_order_In (db t) m Hnd Hin_t) in G.
      inversion G; subst mq. clear G.
      pose proof (Ho m Hin Hne) as Hm_ok.
      unfold I. split; [now rewrite after_fill_orders|].
      split; [apply consistent_after_fill; rewrite ?Eo; assumption|].
      unfold after_fill. cbn [db].
      split; [|split].
      + intros o Hino Hneo. rewrite filled_record_fill by assumption.
        cbn [part_quantity part_of_fill].
        replace (N.eqb (order_id primary) (order_id o)) with false
          by (symmetry; apply N.eqb_neq; congruence).
        cbn [orb]. pose proof (Ho o Hino Hneo).
        destruct (N.eqb_spec (order_id m) (order_id o)) as [Eid|_]; [|lia].
        assert (m = o)
          by (apply (NoDup_map_eq order_id (orders (db t))); congruence).
        subst. lia.
      + rewrite filled_record_fill by assumption.
        rewrite N.eqb_refl. cbn [orb part_quantity part_of_fill]. lia.
      + lia.
    - unfold I. split; [reflexivity|]. split; [exact Hc|].
      split; [exact Hothers|]. split; lia. }
  destruct HI as (Eo & Ht & Ho & Hprim & Hrem).
  intros o Hin. rewrite Eo in Hin.
  destruct (N.eq_dec (order_id o) (order_id primary)) as [Eid|Hne].
  - destruct Hc as (Hnd & _).
    assert (o = primary) by (apply (NoDup_map_eq order_id (orders (db s))); assumption).
    subst. lia.
  - now apply Ho.
Qed.

Lemma not_overfilled_place_order (s : State) (order order' : Order) (s' : State) :
  consistent uuid4 s -> not_overfilled (db s) ->
  ~ In (order_id order) (map order_id (orders (db s))) ->
  0 < quantity order ->
  place_order uuid4 now order s = Ok (order', s') ->
  not_overfilled (db s').
Proof.
  intros Hc Hn Hnew Hq E. rewrite place_order_eq in E. cbv zeta in E.
  rewrite _fulfill_order_eq in E.
  match type of E with
  | match ?L with _ => _ end = _ => destruct L as [[r t]|e] eqn:Loop
  end; [|discriminate].
  inversion E; subst.
  eapply not_overfilled_fulfill_loop; [| | | | | |exact Loop].
  - now apply consistent_add_order.
  - unfold add_order. cbn [db orders]. apply in_or_app. right. now left.
  - intros c Hin. now apply candidates_opposite in Hin.
  - unfold add_order. cbn [db orders]. intros o Hin Hne.
    apply in_app_or in Hin as [Hin|[<-|[]]]; [|congruence].
    exact (Hn o Hin).
  - apply filled_unlinked. unfold add_order. cbn [db order_links].
    intros Hin. apply in_map_iff in Hin as (l & El & Hl).
    destruct Hc as (_ & _ & Hlinks & _). apply Hnew. rewrite <- El.
    now apply Hlinks.
  - lia.
Qed.

Lemma reachable_not_overfilled (s : State) :
  (forall i j, uuid4 i = uuid4 j -> i = j) ->
  reachable uuid4 now s -> not_overfilled (db s).
Proof.
  intros Hinj. induction 1 as [|s s' order order' Hr IH Hnew Hq E].
  - intros o [].
  - eapply not_overfilled_place_order; try eassumption.
    now apply reachable_consistent.
Qed.

(** Selecting among orders with different identifiers leaves orders with
    different identifiers. *)
Lemma filter_keeps_distinct_ids (keep : Order -> bool) (book : list Order) :
  NoDup (map order_id book) -> NoDup (map order_id (filter keep book)).
Proof.
  intros Hbook. induction book as [|o book IH]; [constructor|].
  apply NoDup_cons_iff in Hbook as [Hfirst Hrest]. cbn [filter].
  destruct (keep o); [|exact (IH Hrest)].
  cbn [map]. apply NoDup_cons; [|exact (IH Hrest)].
  intros Hin. apply Hfirst.
  apply in_map_iff in Hin as (o' & Eid & Hin).
  apply filter_In in Hin as [Hin _].
  rewrite <- Eid. now apply in_map.
Qed.

Lemma candidates_NoDup (d : Database) (order : Order) :
  NoDup (map order_id (orders d)) ->
  NoDup (map order_id
           (match order_type order with
            | BUY => buy_candidates d order
            | SELL => sell_candidates d order
            end)).
Proof.
  intros Hnd.
  destruct (order_type order);
    rewrite ?buy_candidates_eq, ?sell_candidates_eq;
    (eapply Permutation_NoDup;
     [apply Permutation_map, Permutation_sym, sort_by_price_perm
     | now apply filter_keeps_distinct_ids]).
Qed.

(** In every state of the exchange, the candidates of a newly placed order
    meet what the fill allocation asks of them, and the parts the placement
    adds take the smaller of the order's quantity and the total on offer. *)
Lemma placement_fills_min_of_wanted_and_offered (s : State) (order : Order) :
  (forall i j, uuid4 i = uuid4 j -> i = j) ->
  reachable uuid4 now s ->
  ~ In (order_id order) (map order_id (orders (db s))) ->
  0 < quantity order ->
  let s1 := mkState (add_order (db s) order) (drawn s) in
  let candidates := match order_type order with
                    | BUY => buy_candidates (db s1) order
                    | SELL => sell_candidates (db s1) order
                    end in
  exists order' s' new,
    place_order uuid4 now order s = Ok (order', s') /\
    order_parts (db s') = order_parts (db s) ++ new /\
    map part_quantity new
    = allocation (quantity order) (map (offered (db s1)) candidates) /\
    zsum (map part_quantity new)
    = Z.min (quantity order) (zsum (map (offered (db s1)) candidates)).
Proof.
  intros Hinj Hr Hnew Hq s1 candidates.
  pose proof (reachable_consistent s Hinj Hr) as Hc.
  pose proof (reachable_not_overfilled s Hinj Hr) as Hn.
  pose proof (consistent_add_order s order Hc Hnew) as Hc1. fold s1 in Hc1.
  pose proof Hc1 as (Hnd1 & Hf1 & _ & _).
  assert (Hin1 : In order (orders (db s1))).
  { unfold s1, add_order. cbn [db orders]. apply in_or_app. right. now left. }
  assert (Hopp : forall c, In c candidates ->
            In c (orders (db s1)) /\ opposite (order_type order) (order_type c)).
  { intros c Hin. now apply candidates_opposite in Hin. }
  destruct (fulfill_loop_allocates order candidates (quantity order) s1)
    as (r & s' & new & E & Eparts & Eq & Er).
  - exact Hf1.
  - now apply candidates_NoDup.
  - intros Hin. apply in_map_iff in Hin as (c & Eid & Hin).
    destruct (Hopp c Hin) as [Hstored Ho].
    assert (c = order)
      by (apply (NoDup_map_eq order_id (orders (db s1))); assumption).
    subst. destruct Ho as [[? ?]|[? ?]]; congruence.
  - intros c Hin. apply in_map. now apply Hopp.
  - rewrite place_order_eq. cbv zeta. fold s1. fold candidates.
    rewrite _fulfill_order_eq, E. eexists _, s', new.
    split; [reflexivity|]. split; [exact Eparts|]. split; [exact Eq|].
    rewrite Eq. apply allocation_total; [lia|].
    apply Forall_forall. intros x Hx.
    apply in_map_iff in Hx as (c & <- & Hin).
    destruct (Hopp c Hin) as [Hstored Ho]. unfold offered.
    rewrite get_order_remaining_quantity_eq, find_order_In by assumption.
    assert (Hne : order_id c <> order_id order).
    { intros Eid.
      assert (c = order)
        by (apply (NoDup_map_eq order_id (orders (db s1))); assumption).
      subst. destruct Ho as [[? ?]|[? ?]]; congruence. }
    unfold s1, add_order in Hstored. cbn [db orders] in Hstored.
    apply in_app_or in Hstored as [Hstored|[<-|[]]]; [|congruence].
    pose proof (Hn c Hstored) as Hfill.
    change (filled (db s1) (order_id c)) with (filled (db s) (order_id c)).
    lia.
Qed.

(** *** What a placement leaves of the orders *)

(** [place_order] returns, and the stored orders are the ones there were,
    as they were, followed by the new one. *)
Lemma place_order_returns (order : Order) (s : State) :
  exists order' s',
    place_order uuid4 now order s = Ok (order', s') /\
    orders (db s') = orders (db s) ++ [order].
Proof.
  rewrite place_order_eq. cbv zeta. rewrite _fulfill_order_eq.
  set (s1 := mkState (add_order (db s) order) (drawn s)).
  set (cands := match order_type order with
                | BUY => buy_candidates (db s1) order
                | SELL => sell_candidates (db s1) order
                end).
  destruct (fulfill_loop_returns order cands (quantity order) s1) as (r & s' & E).
  { intros c Hc. apply candidates_opposite in Hc as [Hc _]. now apply in_map. }
  rewrite E. eexists _, s'. split; [reflexivity|].
  now rewrite (fulfill_loop_orders _ _ _ _ _ _ E).
Qed.

(** C3, as the code has it.  A sell order of 5 at 140 placed against a lone
    resting buy order of 10 at 150 adds one part, of quantity 5 and at the
    buy order's price of 150, and two links that join the part to the sell
    order and to the buy order; the sell order is then filled, and the buy
    order is stored as it was, OPEN, with 5 remaining. *)
Theorem sell_5_at_140_against_buy_10_at_150 (buy sell : Order) (n : nat) :
  item_id buy = 1001 -> order_type buy = BUY -> quantity buy = 10 ->
  price buy = 150 -> order_status buy = OPEN ->
  item_id sell = 1001 -> order_type sell = SELL -> quantity sell = 5 ->
  price sell = 140 ->
  order_id sell <> order_id buy ->
  exists sell' s' p,
    place_order uuid4 now sell (mkState (mkDatabase [buy] [] []) n) = Ok (sell', s') /\
    order_parts (db s') = [p] /\ part_quantity p = 5 /\ part_price p = 150 /\
    order_links (db s')
    = [mkOrderLink (order_id sell) (order_part_id p);
       mkOrderLink (order_id buy) (order_part_id p)] /\
    get_order_remaining_quantity (db s') (order_id sell) = Ok 0 /\
    get_order_remaining_quantity (db s') (order_id buy) = Ok 5 /\
    find_order (db s') (order_id buy) = Some buy.
Proof.
  intros Hbi Hbt Hbq Hbp Hbs Hsi Hst Hsq Hsp Hne.
  assert (E1 : N.eqb (order_id sell) (order_id buy) = false)
    by now apply N.eqb_neq.
  assert (E2 : N.eqb (order_id buy) (order_id sell) = false)
    by (apply N.eqb_neq; congruence).
  set (s1 := mkState (add_order (mkDatabase [buy] [] []) sell) n).
  assert (Hc : sell_candidates (db s1) sell = [buy]).
  { rewrite sell_candidates_eq. unfold s1, add_order.
    cbn [db orders app filter]. unfold eligible_for_sell.
    rewrite Hbs, Hbt, Hbi, Hsi, Hbp, Hsp, Hst. cbn.
    now rewrite andb_false_r. }
  assert (Hb : find_order (db s1) (order_id buy) = Some buy).
  { unfold find_order, s1, add_order. cbn [db orders app find].
    now rewrite N.eqb_refl. }
  assert (Hs : find_order (db s1) (order_id sell) = Some sell).
  { unfold find_order, s1, add_order. cbn [db orders app find].
    now rewrite E2, N.eqb_refl. }
  assert (H0 : forall x, filled (db s1) x = 0) by reflexivity.
  rewrite place_order_eq. cbv zeta. rewrite Hst. cbn [db drawn]. fold s1.
  change (sell_candidates (add_order (mkDatabase [buy] [] []) sell) sell)
    with (sell_candidates (db s1) sell).
  rewrite Hc, _fulfill_order_eq, fulfill_loop_cons, Hsq.
  rewrite get_order_remaining_quantity_eq, Hb, H0, Hbq.
  change (5 <=? 0) with false. change (Z.min 5 (10 - 0)) with 5.
  change (5 - 5) with 0. cbn iota.
  rewrite fulfill_loop_nil. change (0 =? 0) with true. cbn iota.
  set (s2 := after_fill uuid4 now s1 sell buy 5).
  exists sell, s2, (part_of_fill uuid4 now s1 buy 5).
  split; [reflexivity|]. split; [reflexivity|]. split; [reflexivity|].
  split; [exact Hbp|]. split; [reflexivity|].
  rewrite !get_order_remaining_quantity_eq.
  change (find_order (db s2)) with (find_order (db s1)).
  rewrite Hb, Hs. unfold s2, after_fill. cbn [db].
  rewrite !filled_record_fill by (cbn; tauto).
  rewrite !H0, !N.eqb_refl, E1. cbn [orb].
  cbn [part_quantity part_of_fill]. rewrite Hsq, Hbq. repeat split.
Qed.

End ExchangeFacts.

(** ** The store's queries and updates *)

Module ClaimsOnStore.
Import JsonDatabase StoreFacts.

(** C6. [get_order_remaining_quantity] raises when no stored order has the
    identifier; otherwise it returns the quantity of the order stored under
    it less the quantities of the parts that some link joins to it. *)
Theorem get_order_remaining_quantity_is_quantity_less_linked (d : Database) (oid : UUID) :
  ((forall o, In o (orders d) -> order_id o <> oid) ->
   get_order_remaining_quantity d oid = Raise IndexError) /\
  (forall o, In o (orders d) -> order_id o = oid ->
     exists o', find_order d oid = Some o' /\ In o' (orders d) /\ order_id o' = oid /\
       get_order_remaining_quantity d oid
       = Ok (quantity o' - zsum (map part_quantity (linked_parts d oid)))) /\
  (NoDup (map order_id (orders d)) ->
   forall o, In o (orders d) -> order_id o = oid ->
     get_order_remaining_quantity d oid
     = Ok (quantity o - zsum (map part_quantity (linked_parts d oid)))) /\
  (forall p, In p (linked_parts d oid) <->
     In p (order_parts d) /\
     exists l, In l (order_links d) /\ link_order_id l = oid
               /\ link_order_part_id l = order_part_id p).
Proof.
  rewrite get_order_remaining_quantity_eq. fold (filled d oid).
  assert (Hfound : forall o, In o (orders d) -> order_id o = oid ->
            exists o', find_order d oid = Some o').
  { intros o Hin E. destruct (find_order d oid) as [o'|] eqn:F; [now exists o'|].
    apply find_order_None in F. exfalso. apply F. rewrite <- E. now apply in_map. }
  split; [|split; [|split]].
  - intros Hnone. destruct (find_order d oid) as [o|] eqn:F; [|reflexivity].
    apply find_order_Some in F as [Hin E]. now apply Hnone in Hin.
  - intros o Hin E. destruct (Hfound o Hin E) as [o' F]. rewrite F.
    exists o'. destruct (find_order_Some _ _ _ F). auto.
  - intros Hnd o Hin E. destruct (Hfound o Hin E) as [o' F]. rewrite F.
    destruct (find_order_Some _ _ _ F) as [Hin' E'].
    assert (o' = o) by (apply (NoDup_map_eq order_id (orders d)); congruence).
    now subst.
  - intros p. unfold linked_parts. rewrite filter_In, linked_iff. tauto.
Qed.

(** C9. With no [order_id] and an [order_part_id], [get_order_parts] returns
    every part that some link references, and besides them the part under
    the given identifier; it may thus return parts other than the one asked
    for. *)
Theorem get_order_parts_by_part_id_returns_every_linked_part (d : Database) (pid : UUID) :
  (forall p, In p (get_order_parts d None (Some pid)) <->
     In p (order_parts d) /\
     ((exists l, In l (order_links d) /\ link_order_part_id l = order_part_id p)
      \/ order_part_id p = pid)) /\
  exists d' pid' p',
    In p' (get_order_parts d' None (Some pid')) /\ order_part_id p' <> pid'.
Proof.
  split.
  - intros p. unfold get_order_parts. rewrite filter_In.
    assert (Hin : uuid_in (order_part_id p)
                    (map link_order_part_id
                       (filter (fun l => is_None_or N.eqb (link_order_id l) None)
                               (order_links d))) = true <->
                  exists l, In l (order_links d)
                            /\ link_order_part_id l = order_part_id p).
    { rewrite uuid_in_In, in_map_iff. cbn [is_None_or].
      split; intros (l & H1 & H2).
      - apply filter_In in H2 as [H2 _]. now exists l.
      - exists l. split; [assumption|]. apply filter_In. now split. }
    destruct (uuid_in _ _) eqn:U.
    + split; [|tauto]. intros [Hp _]. split; [assumption|]. left. now apply Hin.
    + cbn [eq_opt_uuid]. rewrite N.eqb_eq. split.
      * intros [Hp E]. split; [assumption | now right].
      * intros [Hp [Hl|E]]; [|now split].
        apply Hin in Hl. discriminate.
  - exists (mkDatabase [] [mkOrderPart 1000%N 5 150 0; mkOrderPart 1001%N 5 150 1]
                       [mkOrderLink 2%N 1000%N; mkOrderLink 1%N 1000%N]),
           1001%N, (mkOrderPart 1000%N 5 150 0).
    split; [vm_compute; now left | vm_compute; discriminate].
Qed.

(** C2, as the code has it.  [update_order_status] returns whatever the
    store holds; parts and links stay, and of the orders at most one
    changes, in its status only. *)
Theorem update_order_status_returns_and_touches_one_status (d : Database) (oid : pyval) (status : OrderStatus) :
  exists d',
    update_order_status d oid status = Ok d' /\
    order_parts d' = order_parts d /\
    order_links d' = order_links d /\
    (orders d' = orders d \/
     exists l1 o l2,
       orders d = l1 ++ o :: l2 /\
       orders d' = l1 ++ set_order_status o status :: l2).
Proof.
  eexists. split; [reflexivity|]. cbn [order_parts order_links orders].
  repeat split. apply update_scan_shape.
Qed.

End ClaimsOnStore.

(** ** The demo driver's run, and runs like it *)

Module Runs.
Import JsonDatabase StoreFacts.

(** The driver's first order rests: no part, no link, all of it remaining. *)
Example first_buy_order_rests :
  exists s,
    place_order demo_uuid4 demo_now buy_order start = Ok (buy_order, s) /\
    orders (db s) = [buy_order] /\
    order_parts (db s) = [] /\ order_links (db s) = [] /\
    get_order_remaining_quantity (db s) (order_id buy_order) = Ok 10.
Proof. eexists. split; [vm_compute; reflexivity|]. repeat split. Qed.

(** The driver's third order takes the rest of the buy order, at 150. *)
Example second_sell_order_fills_the_buy_order :
  exists s,
    and_then (and_then (place_order demo_uuid4 demo_now buy_order start) sell_order)
             sell_order2
    = Ok (sell_order2, s) /\
    map part_quantity (order_parts (db s)) = [5; 5] /\
    map part_price (order_parts (db s)) = [150; 150] /\
    get_order_remaining_quantity (db s) (order_id buy_order) = Ok 0 /\
    get_order_remaining_quantity (db s) (order_id sell_order2) = Ok 0.
Proof. eexists. split; [vm_compute; reflexivity|]. repeat split. Qed.

(** The driver's fourth order, on another item, rests. *)
Example sell_order_on_another_item_rests :
  exists s0 s,
    and_then (and_then (place_order demo_uuid4 demo_now buy_order start) sell_order)
             sell_order2
    = Ok (sell_order2, s0) /\
    place_order demo_uuid4 demo_now sell_order3 s0 = Ok (sell_order3, s) /\
    order_parts (db s) = order_parts (db s0) /\
    order_links (db s) = order_links (db s0) /\
    get_order_remaining_quantity (db s) (order_id sell_order3) = Ok 10.
Proof.
  eexists _, _. split; [vm_compute; reflexivity|].
  split; [vm_compute; reflexivity|]. repeat split.
Qed.

(** C1, on the driver's second order.  The sell order of 5 is filled by the
    resting buy order of 10: its remaining quantity is 0, and the store
    still has it OPEN. *)
Theorem filled_sell_order_is_stored_open :
  exists s,
    and_then (place_order demo_uuid4 demo_now buy_order start) sell_order
    = Ok (sell_order, s) /\
    get_order_remaining_quantity (db s) (order_id sell_order) = Ok 0 /\
    find_order (db s) (order_id sell_order) = Some sell_order /\
    order_status sell_order = OPEN /\
    get_orders (db s) None None None None (Some CLOSED) None None = [].
Proof.
  eexists. split; [vm_compute; reflexivity|].
  repeat split.
Qed.

(** C2 as stated fails where no order has the identifier: the call returns,
    and returns the store as it was. *)
Lemma update_order_status_of_missing_order_returns :
  find_order (mkDatabase [buy_order] [] []) 9%N = None /\
  update_order_status (mkDatabase [buy_order] [] []) (PyUUID 9%N) CLOSED
  = Ok (mkDatabase [buy_order] [] []) /\
  ~ exists e,
      update_order_status (mkDatabase [buy_order] [] []) (PyUUID 9%N) CLOSED
      = Raise e.
Proof.
  split; [reflexivity|]. split; [reflexivity|].
  intros [e H]. discriminate H.
Qed.

(** C3 as stated fails on the driver's second order: the one part that is
    made has the price of the resting buy order, 150, and no part of
    quantity 5 at 140 exists. *)
Lemma demo_part_is_not_priced_140 :
  exists sell' s',
    place_order demo_uuid4 demo_now sell_order
                (mkState (mkDatabase [buy_order] [] []) 0) = Ok (sell', s') /\
    map part_price (order_parts (db s')) = [150] /\
    ~ exists p, In p (order_parts (db s')) /\ part_quantity p = 5
                /\ part_price p = 140.
Proof.
  eexists _, _. split; [vm_compute; reflexivity|].
  split; [reflexivity|].
  intros (p & [<-|[]] & _ & Hprice). discriminate Hprice.
Qed.

(** C8, on a third order.  After the driver's first two orders, a buy order
    meets the filled sell order, which is still OPEN, and a part of
    quantity 0 is stored for the pair. *)
Theorem part_of_quantity_zero_is_stored :
  exists s0 buy' s part,
    and_then (place_order demo_uuid4 demo_now buy_order start) sell_order
    = Ok (sell_order, s0) /\
    offered (db s0) sell_order = 0 /\
    place_order demo_uuid4 demo_now buy_order2 s0 = Ok (buy', s) /\
    order_parts (db s) = order_parts (db s0) ++ [part] /\
    part_quantity part = 0 /\
    links_of_part (db s) (order_part_id part)
    = [mkOrderLink (order_id buy_order2) (order_part_id part);
       mkOrderLink (order_id sell_order) (order_part_id part)].
Proof.
  eexists _, _, _, _. split; [vm_compute; reflexivity|].
  split; [reflexivity|]. split; [vm_compute; reflexivity|].
  repeat split.
Qed.

(** C10. Neither candidate query looks at the user: an eligible order of
    the user who places the order is a candidate like any other.  So a buy
    order placed by the user of a resting sell order trades with it: the
    part's two links point to two orders of one user. *)
Theorem self_trade_is_permitted :
  (forall d buy o,
     In o (orders d) -> eligible_for_buy buy o = true ->
     user_id o = user_id buy -> In o (buy_candidates d buy)) /\
  (forall d sell o,
     In o (orders d) -> eligible_for_sell sell o = true ->
     user_id o = user_id sell -> In o (sell_candidates d sell)) /\
  exists s0 ask' bid' s p l1 l2 o1 o2,
    place_order demo_uuid4 demo_now own_ask start = Ok (ask', s0) /\
    find_order (db s0) (order_id own_ask) = Some own_ask /\
    order_status own_ask = OPEN /\
    place_order demo_uuid4 demo_now own_bid s0 = Ok (bid', s) /\
    order_parts (db s) = order_parts (db s0) ++ [p] /\
    links_of_part (db s) (order_part_id p) = [l1; l2] /\
    find_order (db s) (link_order_id l1) = Some o1 /\
    find_order (db s) (link_order_id l2) = Some o2 /\
    order_id o1 <> order_id o2 /\
    user_id o1 = user_id o2.
Proof.
  split; [|split].
  - intros d buy o Hin He _. apply In_buy_candidates. now split.
  - intros d sell o Hin He _. apply In_sell_candidates. now split.
  - eexists _, _, _, _, _, _, _, _, _.
    split; [vm_compute; reflexivity|].
    split; [reflexivity|]. split; [reflexivity|].
    split; [vm_compute; reflexivity|].
    split; [reflexivity|]. split; [reflexivity|].
    split; [reflexivity|]. split; [reflexivity|].
    split; [discriminate | reflexivity].
Qed.

End Runs.

(** ** The theorems at work on the runs above *)

Module Witnesses.
Import JsonDatabase.

Lemma demo_uuid4_fresh (d : Database) (n : nat) :
  order_parts d = [] -> order_links d = [] ->
  fresh_draws demo_uuid4 (mkState d n).
Proof.
  intros Hp Hl. split.
  - intros k _. cbn [db]. rewrite Hp, Hl. simpl. tauto.
  - intros i j _ _ H. unfold demo_uuid4 in H. lia.
Defined.

Lemma demo_uuid4_injective (i j : nat) : demo_uuid4 i = demo_uuid4 j -> i = j.
Proof. unfold demo_uuid4. lia. Defined.

(** The driver's first two orders, by the general statement. *)
Lemma sell_5_at_140_against_buy_10_at_150_on_demo :
  exists sell' s' p,
    place_order demo_uuid4 demo_now sell_order
                (mkState (mkDatabase [buy_order] [] []) 0) = Ok (sell', s') /\
    order_parts (db s') = [p] /\ part_quantity p = 5 /\ part_price p = 150 /\
    order_links (db s')
    = [mkOrderLink (order_id sell_order) (order_part_id p);
       mkOrderLink (order_id buy_order) (order_part_id p)] /\
    get_order_remaining_quantity (db s') (order_id sell_order) = Ok 0 /\
    get_order_remaining_quantity (db s') (order_id buy_order) = Ok 5 /\
    find_order (db s') (order_id buy_order) = Some buy_order.
Proof.
  apply (sell_5_at_140_against_buy_10_at_150 demo_uuid4 demo_now
           buy_order sell_order 0); try reflexivity.
  discriminate.
Defined.

(** Two asks at one price are both candidates of a bid above them, in the
    order they were stored. *)
Lemma buy_candidates_of_bid_c :
  let s1 := mkState (add_order (mkDatabase [ask_a; ask_b] [] []) bid_c) 0 in
  Permutation (buy_candidates (db s1) bid_c)
              (filter (eligible_for_buy bid_c) (orders (db s1))) /\
  StronglySorted price_le (buy_candidates (db s1) bid_c) /\
  filter (fun o => price o =? 140) (buy_candidates (db s1) bid_c) = [ask_a; ask_b].
Proof.
  destruct (buy_candidates_are_eligible_sells_by_price demo_uuid4 demo_now bid_c
              (mkState (mkDatabase [ask_a; ask_b] [] []) 0) eq_refl)
    as (_ & _ & Hperm & Hsorted & Hstable & _).
  cbv zeta. split; [exact Hperm|]. split; [exact Hsorted|].
  exact (eq_trans (Hstable 140) eq_refl).
Defined.

(** A bid for 5 against asks of 3 and 4 at one price: fills of 3 and 2. *)
Lemma fill_allocation_of_bid_c :
  let s := mkState (mkDatabase [ask_a; ask_b; bid_c] [] []) 0 in
  exists primary' s' new,
    _fulfill_order demo_uuid4 demo_now bid_c [ask_a; ask_b] s = Ok (primary', s') /\
    order_parts (db s') = order_parts (db s) ++ new /\
    map part_quantity new = [3; 2] /\
    zsum (map part_quantity new) = 5.
Proof.
  destruct (fill_allocation_fills_min_of_wanted_and_offered demo_uuid4 demo_now
              bid_c [ask_a; ask_b]
              (mkState (mkDatabase [ask_a; ask_b; bid_c] [] []) 0))
    as (_ & _ & primary' & s' & new & E & Eparts & Eq & Esum).
  - now apply demo_uuid4_fresh.
  - repeat constructor; simpl; intuition discriminate.
  - simpl. intuition discriminate.
  - intros c [<-|[<-|[]]]; simpl; tauto.
  - intros c [<-|[<-|[]]]; vm_compute; discriminate.
  - vm_compute. discriminate.
  - cbv zeta. exists primary', s', new.
    split; [exact E|]. split; [exact Eparts|].
    split; [exact Eq | exact Esum].
Defined.

(** The remaining quantities after the driver's first two orders. *)
Lemma remaining_quantities_on_demo :
  let d := db (state_of (and_then (place_order demo_uuid4 demo_now buy_order start)
                                  sell_order)) in
  get_order_remaining_quantity d 9%N = Raise IndexError /\
  get_order_remaining_quantity d (order_id buy_order)
  = Ok (quantity buy_order
        - zsum (map part_quantity (linked_parts d (order_id buy_order)))).
Proof.
  cbv zeta.
  set (d := db (state_of (and_then (place_order demo_uuid4 demo_now buy_order start)
                                   sell_order))).
  split.
  - apply (proj1 (ClaimsOnStore.get_order_remaining_quantity_is_quantity_less_linked d 9%N)).
    intros o [<-|[<-|[]]]; discriminate.
  - apply (proj1 (proj2 (proj2
             (ClaimsOnStore.get_order_remaining_quantity_is_quantity_less_linked
                d (order_id buy_order))))).
    + repeat constructor; simpl; intuition discriminate.
    + now left.
    + reflexivity.
Defined.

Lemma demo_reachable :
  reachable demo_uuid4 demo_now
    (state_of (and_then (place_order demo_uuid4 demo_now buy_order start)
                        sell_order)).
Proof.
  eapply (reachable_place demo_uuid4 demo_now
            (state_of (place_order demo_uuid4 demo_now buy_order start))
            _ sell_order sell_order).
  - eapply (reachable_place demo_uuid4 demo_now start _ buy_order buy_order).
    + apply reachable_start.
    + simpl. tauto.
    + reflexivity.
    + reflexivity.
  - simpl. intuition discriminate.
  - reflexivity.
  - reflexivity.
Defined.

(** The part of the driver's second order settles its two orders. *)
Lemma every_part_settles_two_on_demo :
  let s := state_of (and_then (place_order demo_uuid4 demo_now buy_order start)
                              sell_order) in
  NoDup (map order_id (orders (db s))) /\
  forall p, In p (order_parts (db s)) -> settles_two (db s) p.
Proof.
  exact (every_part_settles_a_buy_and_a_sell demo_uuid4 demo_now _
           demo_uuid4_injective demo_reachable).
Defined.

(** The resting ask of a user is a candidate of that user's bid. *)
Lemma own_ask_is_candidate_of_own_bid :
  In own_ask (buy_candidates (mkDatabase [own_ask; own_bid] [] []) own_bid).
Proof.
  apply (proj1 Runs.self_trade_is_permitted
           (mkDatabase [own_ask; own_bid] [] []) own_bid own_ask).
  - now left.
  - reflexivity.
  - reflexivity.
Defined.

End Witnesses.

(** * Further properties of the store and of the engine *)

(** ** The store *)

Module MoreOnStore.
Import JsonDatabase StoreFacts.

(** X2. [update_order_status] leaves the store as it is, whatever identifier
    and status it is given: the stored [user_id] is an integer and
    [str(order_id)] a string, so no order passes the test of the scan. *)
Theorem update_order_status_changes_nothing (d : Database) (oid : pyval) (status : OrderStatus) :
  update_order_status d oid status = Ok d.
Proof.
  unfold update_order_status.
  assert (Hscan : forall l, update_scan oid status l = l).
  { induction l as [|o l IH]; cbn [update_scan]; [reflexivity|].
    cbn [py_eq]. now rewrite IH. }
  rewrite Hscan. now destruct d.
Qed.

(** X11. [get_order_parts] returns, in store order, the parts that a link
    joins to the given order (to any order when none is given) together with
    the part under the given part identifier: the two arguments widen the
    result, they do not narrow it, and with no part identifier a part
    without links is never returned. *)
Theorem get_order_parts_is_a_union (d : Database) (f_order_id f_order_part_id : option UUID) (p : OrderPart) :
  In p (get_order_parts d f_order_id f_order_part_id) <->
  In p (order_parts d) /\
  ((exists l, In l (order_links d) /\
              link_order_part_id l = order_part_id p /\
              (f_order_id = None \/ f_order_id = Some (link_order_id l)))
   \/ f_order_part_id = Some (order_part_id p)).
Proof.
  unfold get_order_parts. rewrite filter_In.
  set (ids := map link_order_part_id
                (filter (fun l => is_None_or N.eqb (link_order_id l) f_order_id)
                        (order_links d))).
  assert (Hids : uuid_in (order_part_id p) ids = true <->
                 exists l, In l (order_links d) /\
                           link_order_part_id l = order_part_id p /\
                           (f_order_id = None \/ f_order_id = Some (link_order_id l))).
  { unfold ids. rewrite uuid_in_In, in_map_iff. split.
    - intros (l & E & Hl). apply filter_In in Hl as [Hl Hm].
      exists l. split; [assumption|]. split; [assumption|].
      destruct f_order_id as [x|]; [right | now left].
      cbn [is_None_or] in Hm. apply N.eqb_eq in Hm. now subst.
    - intros (l & Hl & E & Hm). exists l. split; [assumption|].
      apply filter_In. split; [assumption|].
      destruct Hm as [->| ->]; cbn [is_None_or]; [reflexivity | apply N.eqb_refl]. }
  assert (Hpid : eq_opt_uuid (order_part_id p) f_order_part_id = true <->
                 f_order_part_id = Some (order_part_id p)).
  { destruct f_order_part_id as [x|]; cbn [eq_opt_uuid].
    - rewrite N.eqb_eq. split; [intros ->; reflexivity | congruence].
    - split; discriminate. }
  destruct (uuid_in (order_part_id p) ids) eqn:U.
  - split; [|tauto]. intros [Hp _]. split; [assumption|]. left. now apply Hids.
  - rewrite Hpid. split.
    + intros [Hp E]. split; [assumption | now right].
    + intros [Hp [Hl|E]]; [|now split].
      apply Hids in Hl. discriminate.
Qed.

(** X12. An order added under an identifier new to the store is what a query
    by that identifier returns, alone; when no link mentions the identifier
    its remaining quantity is its quantity; and queries by another
    identifier answer as before. *)
Theorem add_order_then_lookup (d : Database) (order : Order) :
  ~ In (order_id order) (map order_id (orders d)) ->
  get_orders (add_order d order) (Some (order_id order)) None None None None None None
  = [order] /\
  (~ In (order_id order) (map link_order_id (order_links d)) ->
   get_order_remaining_quantity (add_order d order) (order_id order)
   = Ok (quantity order)) /\
  (forall x, x <> order_id order ->
     get_orders (add_order d order) (Some x) None None None None None None
     = get_orders d (Some x) None None None None None None /\
     get_order_remaining_quantity (add_order d order) x
     = get_order_remaining_quantity d x).
Proof.
  intros Hnew.
  assert (Hold : filter (fun o => N.eqb (order_id o) (order_id order)) (orders d) = []).
  { apply filter_none. intros o Hin. apply N.eqb_neq. intros E.
    apply Hnew. rewrite <- E. now apply in_map. }
  assert (Hq : get_orders (add_order d order) (Some (order_id order))
                          None None None None None None = [order]).
  { rewrite get_orders_by_id. unfold add_order. cbn [orders].
    rewrite filter_app, Hold. cbn [filter app]. now rewrite N.eqb_refl. }
  split; [exact Hq|]. split.
  - intros Hlinks. unfold get_order_remaining_quantity. rewrite Hq.
    rewrite get_order_parts_linked.
    change (linked_parts (add_order d order) (order_id order))
      with (linked_parts d (order_id order)).
    unfold linked_parts. rewrite filter_none; [cbn; f_equal; lia|].
    intros p _. apply not_true_is_false. intros H.
    apply linked_iff in H as (l & Hl & E & _).
    apply Hlinks. rewrite <- E. now apply in_map.
  - intros x Hx.
    assert (Hsame : get_orders (add_order d order) (Some x) None None None None None None
                    = get_orders d (Some x) None None None None None None).
    { rewrite !get_orders_by_id. unfold add_order. cbn [orders].
      rewrite filter_app. cbn [filter].
      replace (N.eqb (order_id order) x) with false
        by (symmetry; apply N.eqb_neq; congruence).
      apply app_nil_r. }
    split; [exact Hsame|].
    unfold get_order_remaining_quantity. rewrite Hsame. reflexivity.
Qed.

(** X16. Storing a part under a new identifier and linking it to an order
    lowers the remaining quantity of that order by the part's quantity and
    leaves the remaining quantity of every other order as it was. *)
Theorem linked_part_lowers_remaining_quantity (d : Database) (part : OrderPart) (oid x : UUID) (r : Z) :
  ~ In (order_part_id part) (map order_part_id (order_parts d)) ->
  ~ In (order_part_id part) (map link_order_part_id (order_links d)) ->
  get_order_remaining_quantity d x = Ok r ->
  get_order_remaining_quantity
    (add_order_link (add_order_part d part)
                    (mkOrderLink oid (order_part_id part))) x
  = Ok (if N.eqb oid x then r - part_quantity part else r).
Proof.
  intros Hp Hl. rewrite !get_order_remaining_quantity_eq.
  set (d' := add_order_link (add_order_part d part)
                            (mkOrderLink oid (order_part_id part))).
  change (find_order d' x) with (find_order d x).
  destruct (find_order d x) as [o|]; [|discriminate].
  intros E. inversion E; subst r. clear E.
  assert (Hf : filled d' x
               = filled d x + (if N.eqb oid x then part_quantity part else 0)).
  { unfold filled, linked_parts, d', add_order_link, add_order_part.
    cbn [order_parts order_links].
    rewrite filter_app, map_app, zsum_app. f_equal.
    - f_equal. f_equal. apply filter_ext_in. intros p Hin.
      unfold linked. cbn [order_links]. rewrite existsb_app.
      cbn [existsb link_order_id link_order_part_id].
      replace (N.eqb (order_part_id part) (order_part_id p)) with false.
      + now rewrite andb_false_r, !orb_false_r.
      + symmetry. apply N.eqb_neq. intros Eid. apply Hp. rewrite Eid.
        now apply in_map.
    - cbn [filter]. unfold linked at 1. cbn [order_links].
      rewrite existsb_app. cbn [existsb link_order_id link_order_part_id].
      rewrite N.eqb_refl, andb_true_r, orb_false_r.
      replace (existsb _ (order_links d)) with false.
      + cbn [orb]. destruct (N.eqb oid x); cbn; lia.
      + symmetry. apply not_true_is_false. intros H.
        apply existsb_exists in H as (l & Hin & E).
        apply andb_true_iff in E as [_ E]. apply N.eqb_eq in E.
        apply Hl. rewrite <- E. now apply in_map. }
  rewrite Hf. destruct (N.eqb oid x); f_equal; lia.
Qed.

(** X17. A part counts once towards an order however many links join the
    two: storing a link that is already stored changes no remaining
    quantity and no result of [get_order_parts]. *)
Theorem repeated_link_counts_once (d : Database) (l : OrderLink) :
  In l (order_links d) ->
  (forall x, get_order_remaining_quantity (add_order_link d l) x
             = get_order_remaining_quantity d x) /\
  (forall f_order_id f_order_part_id,
     get_order_parts (add_order_link d l) f_order_id f_order_part_id
     = get_order_parts d f_order_id f_order_part_id).
Proof.
  intros Hl.
  assert (Hparts : forall fo fp,
            get_order_parts (add_order_link d l) fo fp = get_order_parts d fo fp).
  { intros fo fp. unfold get_order_parts, add_order_link.
    cbn [order_links order_parts]. apply filter_ext. intros p.
    replace (uuid_in (order_part_id p)
               (map link_order_part_id
                  (filter (fun k => is_None_or N.eqb (link_order_id k) fo)
                          (order_links d ++ [l]))))
      with (uuid_in (order_part_id p)
              (map link_order_part_id
                 (filter (fun k => is_None_or N.eqb (link_order_id k) fo)
                         (order_links d)))); [reflexivity|].
    apply eq_true_iff_eq. rewrite !uuid_in_In, !in_map_iff.
    split; intros (k & E & Hk); exists k; (split; [exact E|]);
      apply filter_In in Hk as [Hk Hm]; apply filter_In; (split; [|exact Hm]).
    - apply in_or_app. now left.
    - apply in_app_or in Hk as [Hk|[<-|[]]]; assumption. }
  split; [|exact Hparts].
  intros x. unfold get_order_remaining_quantity. rewrite Hparts. reflexivity.
Qed.

End MoreOnStore.

(** ** The engine *)

Section MoreOnExchange.
Import JsonDatabase StoreFacts.

Variable uuid4 : nat -> UUID.
Variable now : nat -> Z.

(** What a run of the loop leaves, pass by pass. *)
Lemma fulfill_loop_trace (primary : Order) (cands : list Order) :
  forall rem s r s',
    fulfill_loop uuid4 now primary cands rem s = Ok (r, s') ->
    exists new,
      (List.length new <= List.length cands)%nat /\
      orders (db s') = orders (db s) /\
      order_parts (db s') = order_parts (db s) ++ new /\
      order_links (db s')
      = order_links (db s) ++ flat_map (links_of_fill primary) (combine cands new) /\
      drawn s' = (drawn s + List.length new)%nat /\
      map order_part_id new = map uuid4 (seq (drawn s) (List.length new)) /\
      map executed_at new = map now (seq (drawn s) (List.length new)) /\
      map part_price new = firstn (List.length new) (map price cands) /\
      r = rem - zsum (map part_quantity new) /\
      (r <= 0 \/ List.length new = List.length cands).
Proof.
  induction cands as [|m rest IH]; intros rem s r s' E.
  - rewrite fulfill_loop_nil in E. inversion E; subst.
    exists []. cbn. rewrite !app_nil_r, Nat.add_0_r.
    repeat split; first [reflexivity | lia].
  - rewrite fulfill_loop_cons in E.
    destruct (Z.leb_spec rem 0) as [Hle|Hlt].
    { inversion E; subst. exists []. cbn. rewrite !app_nil_r, Nat.add_0_r.
      repeat split; first [reflexivity | lia]. }
    destruct (get_order_remaining_quantity (db s) (order_id m)) as [mq|e];
      [|discriminate].
    apply IH in E as (new & Hlen & Eo & Ep & El & Ed & Eids & Ets & Epr & Er & Hstop).
    exists (part_of_fill uuid4 now s m (Z.min rem mq) :: new).
    unfold after_fill, record_fill in *. cbn [db drawn orders order_parts order_links] in *.
    cbn [List.length combine flat_map map firstn seq].
    split; [lia|]. split; [exact Eo|].
    split; [now rewrite Ep, <- app_assoc|].
    split; [rewrite El, <- app_assoc; reflexivity|].
    split; [lia|].
    split; [cbn [part_of_fill order_part_id]; now rewrite Eids|].
    split; [cbn [part_of_fill executed_at]; now rewrite Ets|].
    split; [cbn [part_of_fill part_price]; now rewrite Epr|].
    split.
    + cbn [part_of_fill part_quantity]. unfold zsum in *. cbn [fold_right]. lia.
    + destruct Hstop as [H|H]; [now left | right; lia].
Qed.

Lemma set_quantity_same (o : Order) : set_quantity o (quantity o) = o.
Proof. now destruct o. Qed.

(** What a placement leaves: the trace of its loop, and the order object. *)
Lemma place_order_trace (order : Order) (s : State) :
  let s1 := mkState (add_order (db s) order) (drawn s) in
  let candidates := candidates_of (db s1) order in
  exists r s' new,
    place_order uuid4 now order s
    = Ok (if r =? 0 then order else set_quantity order r, s') /\
    (List.length new <= List.length candidates)%nat /\
    orders (db s') = orders (db s) ++ [order] /\
    order_parts (db s') = order_parts (db s) ++ new /\
    order_links (db s')
    = order_links (db s) ++ flat_map (links_of_fill order) (combine candidates new) /\
    drawn s' = (drawn s + List.length new)%nat /\
    map order_part_id new = map uuid4 (seq (drawn s) (List.length new)) /\
    map executed_at new = map now (seq (drawn s) (List.length new)) /\
    map part_price new = firstn (List.length new) (map price candidates) /\
    r = quantity order - zsum (map part_quantity new) /\
    (r <= 0 \/ List.length new = List.length candidates).
Proof.
  cbv zeta. rewrite place_order_eq. cbv zeta. rewrite _fulfill_order_eq.
  set (s1 := mkState (add_order (db s) order) (drawn s)).
  fold (candidates_of (db s1) order).
  destruct (fulfill_loop_returns uuid4 now order (candidates_of (db s1) order)
              (quantity order) s1) as (r & s' & E).
  { intros c Hc. apply candidates_opposite in Hc as [Hc _]. now apply in_map. }
  rewrite E. exists r, s'.
  apply fulfill_loop_trace in E as (new & H). exists new.
  split; [reflexivity | exact H].
Qed.

Lemma candidates_of_eq (d : Database) (order : Order) :
  candidates_of d order
  = sort_by_price
      (filter (match order_type order with
               | BUY => eligible_for_buy order
               | SELL => eligible_for_sell order
               end) (orders d)).
Proof.
  unfold candidates_of.
  destruct (order_type order); [apply buy_candidates_eq | apply sell_candidates_eq].
Qed.

Lemma candidates_of_sorted (d : Database) (order : Order) :
  StronglySorted price_le (candidates_of d order).
Proof. rewrite candidates_of_eq. apply sort_by_price_sorted. Qed.

Lemma sorted_prices (l : list Order) :
  StronglySorted price_le l -> StronglySorted Z.le (map price l).
Proof.
  induction 1 as [|o l Hs IH Ho]; cbn [map]; constructor; [exact IH|].
  apply Forall_forall. intros x Hx. apply in_map_iff in Hx as (o' & <- & Hin).
  exact (proj1 (Forall_forall _ _) Ho o' Hin).
Qed.

Lemma prefix_member {A : Type} (n : nat) (l : list A) (x : A) :
  In x (firstn n l) -> In x l.
Proof.
  revert n. induction l as [|y l IH]; intros [|n] H; cbn in *; try tauto.
  destruct H as [H|H]; [now left | right; eauto].
Qed.

Lemma sorted_firstn (n : nat) (l : list Z) :
  StronglySorted Z.le l -> StronglySorted Z.le (firstn n l).
Proof.
  intros Hs. revert n. induction Hs as [|x l Hs IH Hx]; intros [|n];
    cbn [firstn]; try constructor; [apply IH|].
  apply Forall_forall. intros y Hy. apply prefix_member in Hy.
  exact (proj1 (Forall_forall _ _) Hx y Hy).
Qed.

Lemma links_of_fills_length (primary : Order) (cands : list Order) (new : list OrderPart) :
  (List.length new <= List.length cands)%nat ->
  List.length (flat_map (links_of_fill primary) (combine cands new))
  = (2 * List.length new)%nat.
Proof.
  revert new. induction cands as [|c cands IH]; intros [|p new] Hlen;
    cbn in *; try lia.
  rewrite IH; lia.
Qed.

(** X1. [place_order] never raises, whatever the store holds: every
    candidate it looks up is a stored order.  The store then holds the
    orders it held, unchanged and in their places, followed by the new
    order as it was given. *)
Theorem place_order_returns_and_stores_the_order (order : Order) (s : State) :
  exists order' s',
    place_order uuid4 now order s = Ok (order', s') /\
    orders (db s') = orders (db s) ++ [order].
Proof.
  destruct (place_order_trace order s) as (r & s' & new & E & _ & Eo & _).
  eexists _, s'. split; [exact E | exact Eo].
Qed.

(** X3. [place_order] only appends to the parts and to the links: the parts
    it adds take the identifiers and time stamps of the next draws, in
    order, and the links it adds are two per new part, the first to the
    placed order and the second to the candidate the part was made with. *)
Theorem place_order_appends_parts_and_their_two_links (order : Order) (s : State) :
  let s1 := mkState (add_order (db s) order) (drawn s) in
  let candidates := candidates_of (db s1) order in
  exists order' s' new,
    place_order uuid4 now order s = Ok (order', s') /\
    order_parts (db s') = order_parts (db s) ++ new /\
    order_links (db s')
    = order_links (db s) ++ flat_map (links_of_fill order) (combine candidates new) /\
    List.length (order_links (db s'))
    = (List.length (order_links (db s)) + 2 * List.length new)%nat /\
    drawn s' = (drawn s + List.length new)%nat /\
    map order_part_id new = map uuid4 (seq (drawn s) (List.length new)) /\
    map executed_at new = map now (seq (drawn s) (List.length new)).
Proof.
  cbv zeta.
  destruct (place_order_trace order s)
    as (r & s' & new & E & Hlen & _ & Ep & El & Ed & Eids & Ets & _).
  eexists _, s', new. split; [exact E|]. split; [exact Ep|].
  split; [exact El|]. split; [|auto].
  rewrite El, length_app, links_of_fills_length by exact Hlen. reflexivity.
Qed.

(** X5. The parts of a placement follow the candidates: the first part is
    made with the first candidate, the second with the second, each at its
    candidate's price, so their prices ascend, for a sell order as for a buy
    order; and when the placement leaves some of the order unfilled, every
    candidate has been given a part. *)
Theorem parts_follow_the_candidates (order : Order) (s : State) :
  let s1 := mkState (add_order (db s) order) (drawn s) in
  let candidates := candidates_of (db s1) order in
  exists order' s' new,
    place_order uuid4 now order s = Ok (order', s') /\
    order_parts (db s') = order_parts (db s) ++ new /\
    map part_price new = firstn (List.length new) (map price candidates) /\
    StronglySorted Z.le (map part_price new) /\
    (quantity order - zsum (map part_quantity new) <= 0 \/
     List.length new = List.length candidates).
Proof.
  cbv zeta.
  destruct (place_order_trace order s)
    as (r & s' & new & E & _ & _ & Ep & _ & _ & _ & _ & Epr & Er & Hstop).
  eexists _, s', new. split; [exact E|]. split; [exact Ep|].
  split; [exact Epr|]. split.
  - rewrite Epr. apply sorted_firstn, sorted_prices, candidates_of_sorted.
  - subst r. exact Hstop.
Qed.

(** X8. The order object comes back with every field but [quantity] as it
    was given.  Its quantity is lowered by the total of the parts made for
    it, except when that leaves nothing: an order filled completely keeps
    the quantity it was given.  The stored copy keeps the given quantity in
    both cases. *)
Theorem placed_order_object_carries_the_unfilled_rest (order : Order) (s : State) :
  exists order' s' new,
    place_order uuid4 now order s = Ok (order', s') /\
    order_parts (db s') = order_parts (db s) ++ new /\
    order' = set_quantity order (quantity order') /\
    quantity order'
    = (if quantity order - zsum (map part_quantity new) =? 0
       then quantity order
       else quantity order - zsum (map part_quantity new)) /\
    In order (orders (db s')).
Proof.
  destruct (place_order_trace order s)
    as (r & s' & new & E & _ & Eo & Ep & _ & _ & _ & _ & _ & Er & _).
  eexists _, s', new. split; [exact E|]. split; [exact Ep|].
  subst r. split; [|split].
  - destruct (_ =? 0); [now rewrite set_quantity_same | reflexivity].
  - destruct (_ =? 0); reflexivity.
  - rewrite Eo. apply in_or_app. right. now left.
Qed.

(** X4. When a sell order is placed, the candidates are exactly the stored
    orders that are OPEN, of type BUY, on the sell order's item and priced
    at or above its price; they come in ascending price, the lowest bid
    first, orders at one price in store order; and every part the placement
    adds is priced at a candidate's price, at or above the sell order's
    limit. *)
Theorem sell_candidates_are_eligible_buys_lowest_first (sell_order : Order) (s : State) :
  order_type sell_order = SELL ->
  let s1 := mkState (add_order (db s) sell_order) (drawn s) in
  let eligible := filter (eligible_for_sell sell_order) (orders (db s1)) in
  let candidates := sell_candidates (db s1) sell_order in
  place_order uuid4 now sell_order s
    = _fulfill_order uuid4 now sell_order candidates s1 /\
  (forall o, In o candidates <->
     In o (orders (db s1)) /\ order_status o = OPEN /\ order_type o = BUY
     /\ item_id o = item_id sell_order /\ price sell_order <= price o) /\
  Permutation candidates eligible /\
  StronglySorted price_le candidates /\
  (forall p, filter (fun o => price o =? p) candidates
             = filter (fun o => price o =? p) eligible) /\
  (forall sell' s' part,
     place_order uuid4 now sell_order s = Ok (sell', s') ->
     In part (order_parts (db s')) ->
     In part (order_parts (db s)) \/ price sell_order <= part_price part).
Proof.
  intros Hsell. cbv zeta.
  split; [rewrite place_order_eq; cbv zeta; now rewrite Hsell|].
  split; [|split; [|split; [|split]]].
  - intros o. rewrite In_sell_candidates, eligible_for_sell_iff. tauto.
  - rewrite sell_candidates_eq. apply sort_by_price_perm.
  - rewrite sell_candidates_eq. apply sort_by_price_sorted.
  - intros p. rewrite sell_candidates_eq. apply sort_by_price_stable.
  - intros sell' s' part E Hin.
    destruct (place_order_trace sell_order s)
      as (r & t & new & E' & _ & _ & Ep & _ & _ & _ & _ & Epr & _).
    rewrite E in E'. inversion E'; subst t. clear E'.
    rewrite Ep in Hin. apply in_app_or in Hin as [Hin|Hin]; [now left|].
    right. apply (in_map part_price) in Hin. rewrite Epr in Hin.
    apply prefix_member in Hin. apply in_map_iff in Hin as (c & Ec & Hc).
    unfold candidates_of in Hc. rewrite Hsell in Hc.
    apply In_sell_candidates in Hc as [_ He].
    apply eligible_for_sell_iff in He. lia.
Qed.



(** *** In the states of the exchange *)

Lemma allocation_nonneg (rem : Z) (ms : list Z) :
  Forall (fun m => 0 <= m) ms -> Forall (fun q => 0 <= q) (allocation rem ms).
Proof.
  intros Hms. revert rem. induction Hms as [|m ms Hm _ IH]; intros rem;
    cbn [allocation]; [constructor|].
  destruct (Z.leb_spec rem 0); constructor; [lia | apply IH].
Qed.


Lemma zsum_member (l : list Z) (x : Z) :
  Forall (fun q => 0 <= q) l -> In x l -> x <= zsum l.
Proof.
  induction 1 as [|y l Hy Hl IH]; intros Hin; [contradiction|].
  pose proof (zsum_nonneg l Hl). unfold zsum in *. cbn [fold_right].
  destruct Hin as [->|Hin]; [lia | specialize (IH Hin); lia].
Qed.

(** What the candidates of a new order offer is not negative. *)
Lemma candidates_offer_nonneg (s : State) (order : Order) :
  (forall i j, uuid4 i = uuid4 j -> i = j) ->
  reachable uuid4 now s ->
  ~ In (order_id order) (map order_id (orders (db s))) ->
  let s1 := mkState (add_order (db s) order) (drawn s) in
  Forall (fun m => 0 <= m) (map (offered (db s1)) (candidates_of (db s1) order)).
Proof.
  intros Hinj Hr Hnew s1.
  pose proof (reachable_consistent uuid4 now s Hinj Hr) as Hc.
  pose proof (reachable_not_overfilled uuid4 now s Hinj Hr) as Hn.
  pose proof (consistent_add_order uuid4 s order Hc Hnew) as (Hnd1 & _).
  apply Forall_forall. intros x Hx.
  apply in_map_iff in Hx as (c & <- & Hin).
  apply candidates_opposite in Hin as [Hstored Ho].
  unfold offered.
  rewrite get_order_remaining_quantity_eq, find_order_In by assumption.
  unfold add_order in Hstored. cbn [db orders] in Hstored.
  apply in_app_or in Hstored as [Hstored|[<-|[]]].
  - pose proof (Hn c Hstored).
    change (filled (db s1) (order_id c)) with (filled (db s) (order_id c)). lia.
  - destruct Ho as [[? ?]|[? ?]]; congruence.
Qed.

Lemma reachable_parts_nonneg (s : State) :
  (forall i j, uuid4 i = uuid4 j -> i = j) ->
  reachable uuid4 now s ->
  Forall (fun p => 0 <= part_quantity p) (order_parts (db s)).
Proof.
  intros Hinj. induction 1 as [|s s' order order' Hr IH Hnew Hq E].
  - constructor.
  - destruct (placement_fills_min_of_wanted_and_offered uuid4 now s order
                Hinj Hr Hnew Hq) as (o2 & s2 & new & E2 & Ep & Eq & _).
    rewrite E in E2. inversion E2; subst. rewrite Ep.
    apply Forall_app. split; [exact IH|].
    assert (Hall : Forall (fun q => 0 <= q) (map part_quantity new)).
    { rewrite Eq. apply allocation_nonneg.
      exact (candidates_offer_nonneg s order Hinj Hr Hnew). }
    apply Forall_forall. intros p Hp.
    apply (proj1 (Forall_forall _ _) Hall). now apply in_map.
Qed.

(** X6. In every state of the exchange, the remaining quantity of each
    stored order can be computed, and lies between 0 and the order's
    quantity: no order is filled beyond what it asked for. *)
Theorem remaining_quantity_stays_within_the_order (s : State) :
  (forall i j, uuid4 i = uuid4 j -> i = j) ->
  reachable uuid4 now s ->
  forall o, In o (orders (db s)) ->
    exists r,
      get_order_remaining_quantity (db s) (order_id o) = Ok r /\
      0 <= r <= quantity o.
Proof.
  intros Hinj Hr o Hin.
  destruct (reachable_consistent uuid4 now s Hinj Hr) as (Hnd & _).
  pose proof (reachable_not_overfilled uuid4 now s Hinj Hr o Hin).
  rewrite get_order_remaining_quantity_eq, find_order_In by assumption.
  eexists. split; [reflexivity | lia].
Qed.

(** X7. In every state of the exchange, no part has a negative quantity, and
    no part is larger than an order it is linked to. *)
Theorem parts_are_no_larger_than_their_orders (s : State) :
  (forall i j, uuid4 i = uuid4 j -> i = j) ->
  reachable uuid4 now s ->
  forall p, In p (order_parts (db s)) ->
    0 <= part_quantity p /\
    forall o l, In o (orders (db s)) -> In l (order_links (db s)) ->
      link_order_id l = order_id o ->
      link_order_part_id l = order_part_id p ->
      part_quantity p <= quantity o.
Proof.
  intros Hinj Hr p Hp.
  pose proof (reachable_parts_nonneg s Hinj Hr) as Hall.
  split; [exact (proj1 (Forall_forall _ _) Hall p Hp)|].
  intros o l Ho Hl E1 E2.
  pose proof (reachable_not_overfilled uuid4 now s Hinj Hr o Ho) as Hfill.
  assert (Hle : part_quantity p <= filled (db s) (order_id o)); [|lia].
  unfold filled. apply zsum_member.
  - apply Forall_forall. intros q Hq.
    apply in_map_iff in Hq as (p' & <- & Hp').
    apply filter_In in Hp' as [Hp' _].
    exact (proj1 (Forall_forall _ _) Hall p' Hp').
  - apply in_map. apply filter_In. split; [exact Hp|].
    apply linked_iff. now exists l.
Qed.


(** *** Links and parts *)

Lemma drawn_ids_distinct (n k : nat) :
  (forall i j, (n <= i)%nat -> (n <= j)%nat -> uuid4 i = uuid4 j -> i = j) ->
  NoDup (map uuid4 (seq n k)).
Proof.
  revert n. induction k as [|k IH]; intros n Hinj; cbn [seq map]; constructor.
  - intros Hin. apply in_map_iff in Hin as (j & E & Hj).
    apply in_seq in Hj. apply Hinj in E; lia.
  - apply IH. intros i j Hi Hj. apply Hinj; lia.
Qed.

Lemma links_of_fills_point_to_new_parts (primary : Order) (cands : list Order) (new : list OrderPart) (l : OrderLink) :
  In l (flat_map (links_of_fill primary) (combine cands new)) ->
  In (link_order_part_id l) (map order_part_id new).
Proof.
  intros Hin. apply in_flat_map in Hin as ([c p] & Hcp & Hl).
  apply in_combine_r in Hcp. unfold links_of_fill in Hl. cbn [fst snd] in Hl.
  destruct Hl as [<-|[<-|[]]]; cbn [link_order_part_id]; now apply in_map.
Qed.

Lemma links_match_parts_after_place_order (s : State) (order order' : Order) (s' : State) :
  fresh_draws uuid4 s ->
  place_order uuid4 now order s = Ok (order', s') ->
  NoDup (map order_part_id (order_parts (db s))) ->
  (forall l, In l (order_links (db s)) ->
     In (link_order_part_id l) (map order_part_id (order_parts (db s)))) ->
  List.length (order_links (db s)) = (2 * List.length (order_parts (db s)))%nat ->
  NoDup (map order_part_id (order_parts (db s'))) /\
  (forall l, In l (order_links (db s')) ->
     In (link_order_part_id l) (map order_part_id (order_parts (db s')))) /\
  List.length (order_links (db s')) = (2 * List.length (order_parts (db s')))%nat.
Proof.
  intros [Hfresh Hinj] E Hnd Hin Hlen.
  destruct (place_order_trace order s)
    as (r & t & new & E' & Hle & _ & Ep & El & _ & Eids & _).
  rewrite E in E'. inversion E'; subst t. clear E'.
  rewrite Ep, El. split; [|split].
  - rewrite map_app. apply NoDup_app; [exact Hnd| |].
    + rewrite Eids. now apply drawn_ids_distinct.
    + intros x Hx Hx'. rewrite Eids in Hx'.
      apply in_map_iff in Hx' as (k & <- & Hk). apply in_seq in Hk.
      destruct (Hfresh k) as [Hp _]; [lia | contradiction].
  - intros l Hl. rewrite map_app. apply in_or_app.
    apply in_app_or in Hl as [Hl|Hl]; [left; now apply Hin | right].
    now apply links_of_fills_point_to_new_parts in Hl.
  - rewrite !length_app, links_of_fills_length by exact Hle. lia.
Qed.

(** X14. In every state of the exchange, the stored parts have pairwise
    different identifiers, every link points to a stored part and to a
    stored order, and there are twice as many links as parts. *)
Theorem links_and_parts_match (s : State) :
  (forall i j, uuid4 i = uuid4 j -> i = j) ->
  reachable uuid4 now s ->
  NoDup (map order_part_id (order_parts (db s))) /\
  (forall l, In l (order_links (db s)) ->
     In (link_order_part_id l) (map order_part_id (order_parts (db s))) /\
     In (link_order_id l) (map order_id (orders (db s)))) /\
  List.length (order_links (db s)) = (2 * List.length (order_parts (db s)))%nat.
Proof.
  intros Hinj Hr.
  assert (H : NoDup (map order_part_id (order_parts (db s))) /\
              (forall l, In l (order_links (db s)) ->
                 In (link_order_part_id l) (map order_part_id (order_parts (db s)))) /\
              List.length (order_links (db s))
              = (2 * List.length (order_parts (db s)))%nat).
  { induction Hr as [|s s' order order' Hr IH Hnew Hq E].
    - cbn. repeat split; [constructor | intros l []].
    - destruct IH as (H1 & H2 & H3).
      destruct (reachable_consistent uuid4 now s Hinj Hr) as (_ & Hf & _).
      exact (links_match_parts_after_place_order s order order' s' Hf E H1 H2 H3). }
  destruct H as (H1 & H2 & H3).
  destruct (reachable_consistent uuid4 now s Hinj Hr) as (_ & _ & Hl & _).
  split; [exact H1|]. split; [|exact H3].
  intros l Hin. split; [now apply H2 | now apply Hl].
Qed.

(** *** What is bought is what is sold *)

Lemma zsum_map_add {A : Type} (f g : A -> Z) (l : list A) :
  zsum (map (fun x => f x + g x) l) = zsum (map f l) + zsum (map g l).
Proof.
  unfold zsum. induction l as [|x l IH]; cbn [map fold_right]; lia.
Qed.

Lemma bonus_of_absent (l : list Order) (x : UUID) (v : Z) :
  ~ In x (map order_id l) ->
  zsum (map (fun o => if N.eqb x (order_id o) then v else 0) l) = 0.
Proof.
  unfold zsum. induction l as [|o l IH]; cbn [map fold_right]; intros Hx;
    [reflexivity|].
  cbn [In] in Hx.
  replace (N.eqb x (order_id o)) with false
    by (symmetry; apply N.eqb_neq; intuition congruence).
  rewrite IH by tauto. reflexivity.
Qed.

Lemma bonus_of_present (l : list Order) (a : Order) (v : Z) :
  NoDup (map order_id l) -> In a l ->
  zsum (map (fun o => if N.eqb (order_id a) (order_id o) then v else 0) l) = v.
Proof.
  induction l as [|o l IH]; cbn [map]; intros Hnd Hin; [contradiction|].
  apply NoDup_cons_iff in Hnd as [Ho Hnd].
  change (zsum (?x :: ?r)) with (x + zsum r).
  destruct Hin as [->|Hin].
  - rewrite N.eqb_refl, bonus_of_absent by exact Ho. lia.
  - replace (N.eqb (order_id a) (order_id o)) with false.
    + rewrite IH by assumption. lia.
    + symmetry. apply N.eqb_neq. intros E. apply Ho. rewrite <- E.
      now apply in_map.
Qed.

(** One fill adds its quantity to what is filled on either side. *)
Lemma filled_on_record_fill (d : Database) (primary m : Order) (part : OrderPart) (side : OrderType) :
  NoDup (map order_id (orders d)) ->
  ~ In (order_part_id part) (map order_part_id (order_parts d)) ->
  ~ In (order_part_id part) (map link_order_part_id (order_links d)) ->
  In primary (orders d) -> In m (orders d) ->
  opposite (order_type primary) (order_type m) ->
  filled_on (record_fill d primary m part) side
  = filled_on d side + part_quantity part.
Proof.
  intros Hnd Hp Hl Hprim Hm Hopp. unfold filled_on.
  change (orders (record_fill d primary m part)) with (orders d).
  set (L := filter (fun o => OrderType_eqb (order_type o) side) (orders d)).
  assert (HL : NoDup (map order_id L)) by now apply filter_keeps_distinct_ids.
  assert (Hin : forall o, In o L <-> In o (orders d) /\ order_type o = side).
  { intros o. unfold L. rewrite filter_In, OrderType_eqb_eq. tauto. }
  assert (Hout : forall b, In b (orders d) -> order_type b <> side ->
                   ~ In (order_id b) (map order_id L)).
  { intros b Hb Hside Hid. apply in_map_iff in Hid as (o & E & Ho).
    apply Hin in Ho as [Ho Ht].
    assert (o = b) by (apply (NoDup_map_eq order_id (orders d)); assumption).
    subst. contradiction. }
  rewrite (map_ext _ (fun o => filled d (order_id o)
                               + (if N.eqb (order_id primary) (order_id o)
                                     || N.eqb (order_id m) (order_id o)
                                  then part_quantity part else 0)))
    by (intros o; now apply filled_record_fill).
  rewrite zsum_map_add. f_equal.
  assert (Hcase : (order_type primary = side /\ order_type m <> side) \/
                  (order_type m = side /\ order_type primary <> side)).
  { destruct Hopp as [[H1 H2]|[H1 H2]], side; rewrite H1, H2;
      (left; split; congruence) || (right; split; congruence). }
  destruct Hcase as [[Hyes Hno]|[Hyes Hno]].
  - rewrite (map_ext_in _ (fun o => if N.eqb (order_id primary) (order_id o)
                                    then part_quantity part else 0)).
    + apply bonus_of_present; [exact HL | now apply Hin].
    + intros o Ho. replace (N.eqb (order_id m) (order_id o)) with false;
        [now rewrite orb_false_r|].
      symmetry. apply N.eqb_neq. intros E.
      apply (Hout m Hm Hno). rewrite E. now apply in_map.
  - rewrite (map_ext_in _ (fun o => if N.eqb (order_id m) (order_id o)
                                    then part_quantity part else 0)).
    + apply bonus_of_present; [exact HL | now apply Hin].
    + intros o Ho. replace (N.eqb (order_id primary) (order_id o)) with false;
        [reflexivity|].
      symmetry. apply N.eqb_neq. intros E.
      apply (Hout primary Hprim Hno). rewrite E. now apply in_map.
Qed.

Lemma filled_on_add_order (d : Database) (order : Order) (side : OrderType) :
  ~ In (order_id order) (map link_order_id (order_links d)) ->
  filled_on (add_order d order) side = filled_on d side.
Proof.
  intros Hnew. unfold filled_on, add_order. cbn [orders].
  rewrite filter_app, map_app, zsum_app.
  change (filled (mkDatabase (orders d ++ [order]) (order_parts d) (order_links d)))
    with (filled d).
  cbn [filter]. destruct (OrderType_eqb (order_type order) side); cbn [map].
  - unfold zsum at 2. cbn [fold_right]. rewrite filled_unlinked by exact Hnew. lia.
  - unfold zsum at 2. cbn [fold_right]. lia.
Qed.

Lemma balanced_fulfill_loop (primary : Order) (cands : list Order) (rem : Z) (s : State) (r : Z) (s' : State) :
  consistent uuid4 s ->
  In primary (orders (db s)) ->
  (forall c, In c cands ->
     In c (orders (db s)) /\ opposite (order_type primary) (order_type c)) ->
  (forall side, filled_on (db s) side = traded (db s)) ->
  fulfill_loop uuid4 now primary cands rem s = Ok (r, s') ->
  forall side, filled_on (db s') side = traded (db s').
Proof.
  intros Hc Hp Hcands Hbal E.
  cut (consistent uuid4 s' /\ orders (db s') = orders (db s) /\
       forall side, filled_on (db s') side = traded (db s')); [tauto|].
  apply (fulfill_loop_keeps uuid4 now
           (fun t => consistent uuid4 t /\ orders (db t) = orders (db s) /\
                     forall side, filled_on (db t) side = traded (db t))
           primary cands) with (rem := rem) (s := s) (r := r);
    [| split; [exact Hc | split; [reflexivity | exact Hbal]] | exact E].
  intros t m fill (Ht & Eo & Hb) Hm.
  destruct (Hcands m Hm) as [Hin Hopp].
  split; [apply consistent_after_fill; rewrite ?Eo; assumption|].
  split; [now rewrite after_fill_orders|].
  intros side. unfold after_fill. cbn [db].
  destruct Ht as (Hnd & [Hnew _] & _).
  destruct (Hnew (drawn t) (Nat.le_refl _)) as [Hparts Hlinks].
  rewrite filled_on_record_fill; try assumption; try (rewrite Eo; assumption).
  rewrite Hb. unfold traded, record_fill. cbn [order_parts].
  rewrite map_app, zsum_app. unfold zsum. cbn [map fold_right]. lia.
Qed.

(** X13. In every state of the exchange, what is filled on the buy orders,
    what is filled on the sell orders and what the parts add up to are one
    and the same quantity. *)
Theorem bought_equals_sold (s : State) :
  (forall i j, uuid4 i = uuid4 j -> i = j) ->
  reachable uuid4 now s ->
  filled_on (db s) BUY = traded (db s) /\
  filled_on (db s) SELL = traded (db s).
Proof.
  intros Hinj Hr.
  cut (forall side, filled_on (db s) side = traded (db s)); [now split|].
  induction Hr as [|s s' order order' Hr IH Hnew Hq E].
  - reflexivity.
  - pose proof (reachable_consistent uuid4 now s Hinj Hr) as Hc.
    rewrite place_order_eq in E. cbv zeta in E.
    rewrite _fulfill_order_eq in E.
    match type of E with
    | match ?L with _ => _ end = _ => destruct L as [[r t]|e] eqn:Loop
    end; [|discriminate].
    inversion E; subst.
    eapply balanced_fulfill_loop; [| | | |exact Loop].
    + now apply consistent_add_order.
    + unfold add_order. cbn [db orders]. apply in_or_app. right. now left.
    + intros c Hin. now apply candidates_opposite in Hin.
    + intros side. cbn [db]. rewrite filled_on_add_order; [apply IH|].
      destruct Hc as (_ & _ & Hl & _). intros Hin.
      apply in_map_iff in Hin as (l & El & Hin).
      apply Hnew. rewrite <- El. now apply Hl.
Qed.

End MoreOnExchange.

(** ** The further theorems at work on the runs *)

Module MoreWitnesses.
Import JsonDatabase.

(** The driver's second order has the first as its one candidate. *)
Lemma sell_candidates_of_sell_order :
  let s1 := mkState (add_order (mkDatabase [buy_order] [] []) sell_order) 0 in
  Permutation (sell_candidates (db s1) sell_order)
              (filter (eligible_for_sell sell_order) (orders (db s1))) /\
  StronglySorted price_le (sell_candidates (db s1) sell_order).
Proof.
  destruct (sell_candidates_are_eligible_buys_lowest_first demo_uuid4 demo_now
              sell_order (mkState (mkDatabase [buy_order] [] []) 0) eq_refl)
    as (_ & _ & Hperm & Hsorted & _).
  cbv zeta. split; [exact Hperm | exact Hsorted].
Defined.

Lemma remaining_of_buy_order_on_demo :
  let s := state_of (and_then (place_order demo_uuid4 demo_now buy_order start)
                              sell_order) in
  exists r,
    get_order_remaining_quantity (db s) (order_id buy_order) = Ok r /\
    0 <= r <= quantity buy_order.
Proof.
  apply (remaining_quantity_stays_within_the_order demo_uuid4 demo_now _
           Witnesses.demo_uuid4_injective Witnesses.demo_reachable buy_order).
  now left.
Defined.

Lemma part_of_demo_is_no_larger_than_its_orders :
  let p := mkOrderPart (demo_uuid4 0) 5 150 (demo_now 0) in
  0 <= part_quantity p /\ part_quantity p <= quantity buy_order.
Proof.
  cbv zeta.
  destruct (parts_are_no_larger_than_their_orders demo_uuid4 demo_now _
              Witnesses.demo_uuid4_injective Witnesses.demo_reachable
              (mkOrderPart (demo_uuid4 0) 5 150 (demo_now 0)))
    as [Hpos Hle].
  - left. reflexivity.
  - split; [exact Hpos|].
    apply (Hle buy_order (mkOrderLink (order_id buy_order) (demo_uuid4 0))).
    + left. reflexivity.
    + right. left. reflexivity.
    + reflexivity.
    + reflexivity.
Defined.



Lemma sell_order_added_then_found :
  get_orders (add_order (mkDatabase [buy_order] [] []) sell_order)
             (Some (order_id sell_order)) None None None None None None
  = [sell_order].
Proof.
  destruct (MoreOnStore.add_order_then_lookup
              (mkDatabase [buy_order] [] []) sell_order) as [H _].
  - simpl. intuition discriminate.
  - exact H.
Defined.

Lemma demo_bought_equals_sold :
  let s := state_of (and_then (place_order demo_uuid4 demo_now buy_order start)
                              sell_order) in
  filled_on (db s) BUY = traded (db s) /\ filled_on (db s) SELL = traded (db s).
Proof.
  exact (bought_equals_sold demo_uuid4 demo_now _
           Witnesses.demo_uuid4_injective Witnesses.demo_reachable).
Defined.

Lemma demo_links_and_parts_match :
  let s := state_of (and_then (place_order demo_uuid4 demo_now buy_order start)
                              sell_order) in
  NoDup (map order_part_id (order_parts (db s))) /\
  (forall l, In l (order_links (db s)) ->
     In (link_order_part_id l) (map order_part_id (order_parts (db s))) /\
     In (link_order_id l) (map order_id (orders (db s)))) /\
  List.length (order_links (db s)) = (2 * List.length (order_parts (db s)))%nat.
Proof.
  exact (links_and_parts_match demo_uuid4 demo_now _
           Witnesses.demo_uuid4_injective Witnesses.demo_reachable).
Defined.


Lemma loose_part_linked_to_buy_order :
  let d := db (state_of (and_then (place_order demo_uuid4 demo_now buy_order start)
                                  sell_order)) in
  get_order_remaining_quantity
    (add_order_link (add_order_part d loose_part)
                    (mkOrderLink (order_id buy_order) (order_part_id loose_part)))
    (order_id buy_order)
  = Ok (5 - 4).
Proof.
  apply (MoreOnStore.linked_part_lowers_remaining_quantity _ loose_part
           (order_id buy_order) (order_id buy_order) 5).
  - simpl. intuition discriminate.
  - simpl. intuition discriminate.
  - reflexivity.
Defined.

Lemma buy_link_stored_again_on_demo :
  let d := db (state_of (and_then (place_order demo_uuid4 demo_now buy_order start)
                                  sell_order)) in
  get_order_remaining_quantity
    (add_order_link d (mkOrderLink (order_id buy_order) (demo_uuid4 0)))
    (order_id buy_order)
  = get_order_remaining_quantity d (order_id buy_order).
Proof.
  cbv zeta.
  destruct (MoreOnStore.repeated_link_counts_once
              (db (state_of (and_then (place_order demo_uuid4 demo_now buy_order start)
                                      sell_order)))
              (mkOrderLink (order_id buy_order) (demo_uuid4 0))) as [H _].
  - right. left. reflexivity.
  - exact (H (order_id buy_order)).
Defined.

End MoreWitnesses.
